(** * chefskiss: the recipe matcher and the macro calculator

    A shallow embedding of the two tool functions of [chefskiss/agent.py],
    [find_recipies] and [calculate_recipe_macros], together with the part of
    the Python runtime they rely on: dynamically typed values as produced by
    [json.loads], exceptions, [print], sets of strings and binary64 floats.

    Strings are Rocq strings (sequences of 8-bit characters); [str.lower] is
    modelled on the ASCII repertoire. *)

From Stdlib Require Import ZArith String Ascii List Bool Lia.
From Stdlib Require Import Floats.PrimFloat Floats.SpecFloat Floats.FloatOps.
From stdpp Require Import gmap strings list.
Import ListNotations.

#[local] Set Warnings "-register-all,-clear-no-such-hyp".

Local Open Scope string_scope.
Local Open Scope list_scope.

(** ** Python values and the interpreter's effects *)

Module Py.

(** What [json.loads] can produce: [null], booleans, integers, floats,
    strings, arrays and objects.  An object is the list of its bindings in
    document order; the keys of a Python dict are distinct, and on a list
    that repeats a key [dict_lookup] reads the first binding. *)
Inductive pyval : Type :=
| PNone
| PBool (b : bool)
| PInt (z : Z)
| PFloat (f : float)
| PStr (s : string)
| PList (l : list pyval)
| PDict (d : list (string * pyval)).

(** The exceptions the two functions can raise. *)
Inductive pyexn : Type :=
| AttributeError
| KeyError
| TypeError
| OverflowError.

(** The three [print] calls of [calculate_recipe_macros], kept as events
    carrying the values interpolated in the message. *)
Inductive warning : Type :=
| RecipeNotFound (recipe : pyval)
| MissingData (recipe : pyval)
| NoMacroData (ingredient_name : pyval) (recipe : pyval).

Inductive result (A : Type) : Type :=
| Ok (a : A)
| Raise (e : pyexn).
Arguments Ok {A} a.
Arguments Raise {A} e.

(** A computation prints warnings and then returns or raises. *)
Definition M (A : Type) : Type := (list warning * result A)%type.

Definition ret {A} (a : A) : M A := ([], Ok a).
Definition raise {A} (e : pyexn) : M A := ([], Raise e).
Definition print (w : warning) : M unit := ([w], Ok tt).
Definition lift {A} (r : result A) : M A := ([], r).

Definition bind {A B} (m : M A) (k : A -> M B) : M B :=
  match m with
  | (out, Ok a) => let (out', r) := k a in ((out ++ out')%list, r)
  | (out, Raise e) => (out, Raise e)
  end.

Definition stdout {A} (m : M A) : list warning := fst m.
Definition value {A} (m : M A) : result A := snd m.

Declare Scope py_scope.
Delimit Scope py_scope with py.
Notation "x <- c ;; k" := (bind c (fun x => k))
  (at level 100, c at next level, right associativity) : py_scope.
Notation "c ;; k" := (bind c (fun _ => k))
  (at level 100, right associativity) : py_scope.

(** [for x in l: s = body(s, x)], stopping at the first exception. *)
Fixpoint for_each {A S} (l : list A) (body : S -> A -> M S) (s : S) : M S :=
  match l with
  | [] => ret s
  | x :: l' => bind (body s x) (for_each l' body)
  end.

(** *** Strings *)

Definition lower_ascii (c : ascii) : ascii :=
  let n := nat_of_ascii c in
  if (65 <=? n)%nat && (n <=? 90)%nat then ascii_of_nat (n + 32) else c.

Fixpoint lower (s : string) : string :=
  match s with
  | EmptyString => EmptyString
  | String c s' => String (lower_ascii c) (lower s')
  end.

(** [v.lower()]: only [str] has the method. *)
Definition str_lower (v : pyval) : M string :=
  match v with
  | PStr s => ret (lower s)
  | _ => raise AttributeError
  end.

(** *** Dictionaries *)

Fixpoint dict_lookup (d : list (string * pyval)) (k : string) : option pyval :=
  match d with
  | [] => None
  | (k', v) :: d' => if String.eqb k' k then Some v else dict_lookup d' k
  end.

(** [v[k]] for a string key [k]: [KeyError] on a dict without the key,
    [TypeError] on everything else (lists and strings want integer indices,
    the other types are not subscriptable). *)
Definition getitem (v : pyval) (k : string) : M pyval :=
  match v with
  | PDict d =>
      match dict_lookup d k with
      | Some x => ret x
      | None => raise KeyError
      end
  | _ => raise TypeError
  end.

(** [v.get(k, default)]: only [dict] has the method. *)
Definition get (v : pyval) (k : string) (default : pyval) : M pyval :=
  match v with
  | PDict d =>
      match dict_lookup d k with
      | Some x => ret x
      | None => ret default
      end
  | _ => raise AttributeError
  end.

(** *** Iteration *)

Fixpoint chars (s : string) : list pyval :=
  match s with
  | EmptyString => []
  | String c s' => PStr (String c EmptyString) :: chars s'
  end.

(** The items a [for] loop (or a generator expression) draws from [v]:
    a list yields its elements, a dict its keys, a string its characters;
    the other types are not iterable. *)
Definition iter (v : pyval) : M (list pyval) :=
  match v with
  | PList l => ret l
  | PDict d => ret (map (fun kv => PStr (fst kv)) d)
  | PStr s => ret (chars s)
  | _ => raise TypeError
  end.

(** *** Truth values *)

Definition truthy (v : pyval) : bool :=
  match v with
  | PNone => false
  | PBool b => b
  | PInt z => negb (z =? 0)%Z
  | PFloat f => negb (f =? 0)%float
  | PStr s => negb (String.eqb s "")
  | PList l => match l with [] => false | _ => true end
  | PDict d => match d with [] => false | _ => true end
  end.

(** *** Floats *)

(** [float(z)] for an [int]: the nearest binary64 (ties to even), and
    [OverflowError] when that is out of range. *)
Definition int_to_double (z : Z) : result float :=
  let f := SF2Prim (binary_normalize prec emax z 0 false) in
  if is_infinity f then Raise OverflowError else Ok f.

(** The operand conversion of float arithmetic ([x / 100.0], [x * y] with
    [y] a float): [bool] and [int] convert, a [float] is taken as it is,
    anything else is a [TypeError]. *)
Definition to_double (v : pyval) : result float :=
  match v with
  | PBool b => Ok (if b then 1%float else 0%float)
  | PInt z => int_to_double z
  | PFloat f => Ok f
  | _ => Raise TypeError
  end.

Definition truediv (v : pyval) (y : float) : M float :=
  bind (lift (to_double v)) (fun x => ret (x / y)%float).

Definition mul (v : pyval) (y : float) : M float :=
  bind (lift (to_double v)) (fun x => ret (x * y)%float).

(** The integer nearest to [m * 2^e], ties to even. *)
Definition nearest_even (m e : Z) : Z :=
  match e with
  | Zneg p =>
      let d := Z.pow_pos 2 p in
      let q := (m / d)%Z in
      match (2 * (m mod d) ?= d)%Z with
      | Lt => q
      | Gt => (q + 1)%Z
      | Eq => if Z.even q then q else (q + 1)%Z
      end
  | _ => (m * 2 ^ e)%Z
  end.

(** [round(x, 1)] on a float.  CPython prints [x] with one digit after the
    point, correctly rounded (ties to even on the exact binary value), and
    reads the decimal back: the result is the double nearest to [n / 10]
    where [n] is the integer nearest to [10 * x].  Zeros, infinities and
    nan round to themselves, and the sign of [x] is kept. *)
Definition round1 (x : float) : float :=
  match Prim2SF x with
  | S754_finite s m e =>
      match nearest_even (10 * Zpos m) e with
      | Zpos n => SF2Prim (SFdiv prec emax (S754_finite s n 0) (S754_finite false 10 0))
      | _ => SF2Prim (S754_zero s)
      end
  | _ => x
  end.

End Py.
Import Py.
Local Open Scope py_scope.

(** ** The two tools

    [RECIPES_DB] and [MACROS_DB] are the two catalogs read at import time;
    here they are arguments.  [RECIPES_DB] is the list of recipe objects of
    [recipes.json], [MACROS_DB] the object of [macros.json], from lowercase
    ingredient name to its nutrients per 100 g. *)

Section Tools.

Variable RECIPES_DB : list pyval.
Variable MACROS_DB : gmap string pyval.

(** [set(x.lower() for x in items)], with [x] drawn through [field]. *)
Definition lowered_set (field : pyval -> M pyval) (items : list pyval) : M (gset string) :=
  for_each items
    (fun (acc : gset string) x => v <- field x ;; s <- str_lower v ;; ret ({[ s ]} ∪ acc))
    ∅.

(** One turn of the loop over [RECIPES_DB] in [find_recipies]. *)
Definition match_recipe (available_set : gset string) (max_missing : Z)
    (matching_recipes : list pyval) (recipe : pyval) : M (list pyval) :=
  ingredients <- getitem recipe "ingredients" ;;
  items <- iter ingredients ;;
  required_set <- lowered_set (fun ingredient => getitem ingredient "name") items ;;
  let missing_ingredients := required_set ∖ available_set in
  if (Z.of_nat (size missing_ingredients) <=? max_missing)%Z then
    name <- getitem recipe "name" ;;
    ret (matching_recipes ++ [name])%list
  else ret matching_recipes.

Definition find_recipies (available_ingredients : list pyval) (max_missing : Z)
    : M (list pyval) :=
  available_set <- lowered_set ret available_ingredients ;;
  for_each RECIPES_DB (match_recipe available_set max_missing) [].

(** [next((r for r in db if r.get("name", "").lower() == recipe.lower()), None)]:
    the generator is consumed up to its first hit, so [recipe.lower()] is
    evaluated once per visited entry and not at all on an empty catalog. *)
Fixpoint next_match (db : list pyval) (recipe : pyval) : M (option pyval) :=
  match db with
  | [] => ret None
  | r :: db' =>
      n <- get r "name" (PStr "") ;;
      a <- str_lower n ;;
      b <- str_lower recipe ;;
      if String.eqb a b then ret (Some r) else next_match db' recipe
  end.

Definition macro_keys : list string := ["protein"; "carbs"; "fat"; "calories"].

(** [total_macros], a dict with the four keys above, in this order. *)
Definition zero_totals : list (string * float) :=
  map (fun macro => (macro, 0%float)) macro_keys.

(** [total_macros[macro] += x]. *)
Definition add_to (total_macros : list (string * float)) (macro : string) (x : float)
    : list (string * float) :=
  map (fun kv => if String.eqb (fst kv) macro then (fst kv, (snd kv + x)%float) else kv)
    total_macros.

(** One turn of the loop over the recipe's ingredients. *)
Definition add_ingredient (recipe : pyval) (total_macros : list (string * float))
    (ingredient_obj : pyval) : M (list (string * float)) :=
  ingredient_name <- get ingredient_obj "name" PNone ;;
  weight_grams <- get ingredient_obj "weight_grams" PNone ;;
  if negb (truthy ingredient_name) || negb (truthy weight_grams) then
    print (MissingData recipe) ;;
    ret total_macros
  else
    ingredient_name_lower <- str_lower ingredient_name ;;
    let macros_per_100g := default PNone (MACROS_DB !! ingredient_name_lower) in
    if negb (truthy macros_per_100g) then
      print (NoMacroData ingredient_name recipe) ;;
      ret total_macros
    else
      scale_factor <- truediv weight_grams 100 ;;
      for_each macro_keys
        (fun totals macro =>
           v <- get macros_per_100g macro (PInt 0) ;;
           x <- mul v scale_factor ;;
           ret (add_to totals macro x))
        total_macros.

(** [{macro: round(value, 1) for macro, value in total_macros.items()}]. *)
Definition rounded (total_macros : list (string * float)) : pyval :=
  PDict (map (fun kv => (fst kv, PFloat (round1 (snd kv)))) total_macros).

Definition calculate_recipe_macros (recipe : pyval) : M pyval :=
  target_recipe_data <- next_match RECIPES_DB recipe ;;
  match target_recipe_data with
  | None =>
      print (RecipeNotFound recipe) ;;
      ret PNone
  | Some r =>
      ingredients <- getitem r "ingredients" ;;
      items <- iter ingredients ;;
      total_macros <- for_each items (add_ingredient recipe) zero_totals ;;
      ret (rounded total_macros)
  end.

End Tools.

(** ** Reading the catalogs

    The views below read a JSON value the way the specification describes the
    data: a recipe record with a name and ingredient entries, an ingredient
    entry with a name and a weight, a nutrient entry with four numbers. *)

Definition field (v : pyval) (k : string) : option pyval :=
  match v with
  | PDict d => dict_lookup d k
  | _ => None
  end.

Definition is_dict (v : pyval) : bool :=
  match v with PDict _ => true | _ => false end.

Definition str_of (v : pyval) : option string :=
  match v with PStr s => Some s | _ => None end.

Definition list_of (v : pyval) : option (list pyval) :=
  match v with PList l => Some l | _ => None end.

(** The ingredient entries of a recipe record. *)
Definition entries (recipe : pyval) : option (list pyval) :=
  field recipe "ingredients" ≫= list_of.

(** The names a recipe requires, one per ingredient entry. *)
Definition required_names (recipe : pyval) : option (list string) :=
  entries recipe ≫= mapM (λ ingredient, field ingredient "name" ≫= str_of).

(** A record the matcher can read: it has a name, and a list of ingredient
    entries that each carry a string name. *)
Definition matchable (recipe : pyval) : Prop :=
  is_Some (field recipe "name") ∧ is_Some (required_names recipe).

(** The record's name as the lookup of [calculate_recipe_macros] reads it:
    [r.get("name", "")]. *)
Definition name_or_empty (recipe : pyval) : pyval :=
  default (PStr "") (field recipe "name").

(** A record the lookup can read: a dict whose name, when present, is a
    string. *)
Definition named (recipe : pyval) : bool :=
  is_dict recipe && bool_decide (is_Some (str_of (name_or_empty recipe))).

(** [recipe] names the record, up to case. *)
Definition names (recipe : string) (r : pyval) : bool :=
  match str_of (name_or_empty r) with
  | Some s => String.eqb (lower s) (lower recipe)
  | None => false
  end.

(** The first catalog record that [recipe] names. *)
Definition first_match (db : list pyval) (recipe : string) : option pyval :=
  List.find (names recipe) db.

(** *** The matcher, in the specification's words *)

(** The required names that are not available, compared in lower case and
    counted once each. *)
Definition missing (required available : list string) : list string :=
  remove_dups (list_difference (lower <$> required) (lower <$> available)).

Definition matches (available : list string) (max_missing : Z) (recipe : pyval) : bool :=
  match required_names recipe with
  | Some required =>
      bool_decide (Z.of_nat (length (missing required available)) ≤ max_missing)%Z
  | None => false
  end.

(** The names of the matching records, in catalog order. *)
Definition matching_names (db : list pyval) (available : list string) (max_missing : Z)
    : list pyval :=
  omap (λ r, if matches available max_missing r then field r "name" else None) db.

(** *** The calculator, in the specification's words *)

Section Nutrients.

Variable MACROS_DB : gmap string pyval.

Definition name_of (ingredient : pyval) : pyval :=
  default PNone (field ingredient "name").

Definition weight_of (ingredient : pyval) : pyval :=
  default PNone (field ingredient "weight_grams").

(** The nutrient entry of an ingredient, [PNone] when the table has none
    for its lowercased name. *)
Definition nutrients (ingredient : pyval) : pyval :=
  match name_of ingredient with
  | PStr s => default PNone (MACROS_DB !! lower s)
  | _ => PNone
  end.

(** An entry is skipped when its name is missing or empty, when its weight
    is missing or zero, or when its (string) name has no usable nutrient
    entry. *)
Definition skipped (ingredient : pyval) : bool :=
  negb (truthy (name_of ingredient))
  || negb (truthy (weight_of ingredient))
  || match name_of ingredient with
     | PStr _ => negb (truthy (nutrients ingredient))
     | _ => false
     end.

Definition is_number (v : pyval) : bool :=
  match to_double v with Ok _ => true | Raise _ => false end.

Definition number (v : pyval) : float :=
  match to_double v with Ok x => x | Raise _ => nan end.

(** [nutrient_per_100g[macro]], 0 when the entry lacks the field. *)
Definition per_100g (ingredient : pyval) (macro : string) : pyval :=
  default (PInt 0) (field (nutrients ingredient) macro).

(** An entry the aggregation can use: a string name, a numeric weight and a
    nutrient entry that is a dict of numbers. *)
Definition usable (ingredient : pyval) : bool :=
  is_dict ingredient
  && bool_decide (is_Some (str_of (name_of ingredient)))
  && is_number (weight_of ingredient)
  && is_dict (nutrients ingredient)
  && forallb (λ macro, is_number (per_100g ingredient macro)) macro_keys.

(** Every ingredient entry is a dict that is either skipped or usable. *)
Definition well_formed_entry (ingredient : pyval) : bool :=
  is_dict ingredient && (skipped ingredient || usable ingredient).

Definition well_formed (recipe : pyval) : bool :=
  named recipe
  && match entries recipe with
     | Some items => forallb well_formed_entry items
     | None => false
     end.

(** [nutrient_per_100g[macro] * (weight_grams / 100.0)]. *)
Definition contribution (macro : string) (ingredient : pyval) : float :=
  (number (per_100g ingredient macro) * (number (weight_of ingredient) / 100))%float.

(** The running total of one macro over the entries that are not skipped,
    in recipe order, from 0.0. *)
Definition total (macro : string) (items : list pyval) : float :=
  fold_left (λ acc ingredient, (acc + contribution macro ingredient)%float)
    (List.filter (λ ingredient, negb (skipped ingredient)) items) 0%float.

Definition macros_of (items : list pyval) : pyval :=
  PDict ((λ macro, (macro, PFloat (round1 (total macro items)))) <$> macro_keys).

(** The aggregation and rounding of [calculate_recipe_macros], for a found
    recipe with ingredient entries [items]. *)
Definition aggregate (recipe : pyval) (items : list pyval) : M pyval :=
  total_macros <- for_each items (add_ingredient MACROS_DB recipe) zero_totals ;;
  ret (rounded total_macros).

End Nutrients.

(** The running totals as a function of the macro. *)
Definition totals_of (f : string -> float) : list (string * float) :=
  (λ macro, (macro, f macro)) <$> macro_keys.

(** The numeric result with every total at zero, and the not-found outcome. *)
Definition zero_macros : pyval :=
  PDict ((λ macro, (macro, PFloat 0)) <$> macro_keys).

Definition NotFound : pyval := PNone.

(** ** Example catalogs *)

Definition ingredient (name : string) (weight_grams : Z) : pyval :=
  PDict [("name", PStr name); ("weight_grams", PInt weight_grams)].

Definition Omelette : pyval :=
  PDict [("name", PStr "Omelette"); ("ingredients", PList [ingredient "egg" 150])].

Definition Salad : pyval :=
  PDict [("name", PStr "Salad");
         ("ingredients", PList [ingredient "lettuce" 80; ingredient "tomato" 120])].

Definition egg : pyval :=
  PDict [("protein", PInt 13); ("carbs", PInt 1); ("fat", PInt 11); ("calories", PInt 155)].

(** Entries with a missing name, an empty name, a missing weight, a zero
    weight, and a name the nutrient table does not know. *)
Definition Leftovers : pyval :=
  PDict [("name", PStr "Leftovers");
         ("ingredients",
          PList [PDict [("weight_grams", PInt 50)];
                 ingredient "" 10;
                 PDict [("name", PStr "salt")];
                 ingredient "egg" 0;
                 ingredient "truffle" 5])].

Definition Frittata : pyval :=
  PDict [("name", PStr "Frittata");
         ("ingredients",
          PList [ingredient "Egg" 100; ingredient "truffle" 5; ingredient "egg" 50])].

(** A record that lists an ingredient with an empty name. *)
Definition Broth : pyval :=
  PDict [("name", PStr "Broth"); ("ingredients", PList [ingredient "" 300])].

Definition example_recipes : list pyval := [Omelette; Salad; Frittata].

Definition example_recipes_incomplete : list pyval := Leftovers :: example_recipes.

Definition example_macros : gmap string pyval := <[ "egg" := egg ]> ∅.

(** The same table with a present but empty entry for lettuce. *)
Definition example_macros_empty_entry : gmap string pyval :=
  <[ "lettuce" := PDict [] ]> example_macros.

(** ** The tool signatures and further readings of the data *)

(** [def find_recipies(available_ingredients, max_missing: int = 2)]: the
    second argument may be left out of the call. *)
Definition default_max_missing : Z := 2.

Definition find_recipies_call (RECIPES_DB : list pyval) (available_ingredients : list pyval)
    (max_missing : option Z) : M (list pyval) :=
  find_recipies RECIPES_DB available_ingredients (default default_max_missing max_missing).

Definition is_str (v : pyval) : bool :=
  match v with PStr _ => true | _ => false end.

(** The names of all the catalog records, in catalog order. *)
Definition all_names (db : list pyval) : list pyval :=
  omap (λ r, field r "name") db.

(** A computation that prints nothing. *)
Definition silent {A} (m : M A) : Prop := stdout m = [].

(** The warning printed for a skipped entry: the first for a falsy name or
    weight, the second for a name without usable nutrient data. *)
Definition warning_of (recipe : pyval) (ingredient : pyval) : warning :=
  if negb (truthy (name_of ingredient)) || negb (truthy (weight_of ingredient))
  then MissingData recipe
  else NoMacroData (name_of ingredient) recipe.

(** A value a [for] loop cannot iterate over. *)
Definition not_iterable (v : pyval) : bool :=
  match v with
  | PList _ | PDict _ | PStr _ => false
  | _ => true
  end.

(** Further example data: a record without ingredients, an entry with a
    textual weight, an entry with a numeric name, and a nutrient table with
    an entry that is not an object. *)
Definition Untitled : pyval := PDict [("name", PStr "Untitled")].

Definition Blank : pyval := PDict [("name", PStr "Blank"); ("ingredients", PNone)].

Definition Porridge : pyval :=
  PDict [("name", PStr "Porridge");
         ("ingredients",
          PList [ingredient "egg" 50;
                 PDict [("name", PStr "egg"); ("weight_grams", PStr "100g")]])].

Definition Numbered : pyval :=
  PDict [("name", PStr "Numbered");
         ("ingredients", PList [PDict [("name", PInt 7); ("weight_grams", PInt 10)]])].

Definition Toast : pyval :=
  PDict [("name", PStr "Toast"); ("ingredients", PList [ingredient "bread" 60])].

Definition example_macros_scalar : gmap string pyval :=
  <[ "bread" := PInt 250 ]> example_macros.

(** * Proofs *)

(** ** Laws of the effect monad *)

Lemma bind_ret {A B} (a : A) (k : A -> M B) : bind (ret a) k = k a.
Proof. unfold bind, ret. destruct (k a); reflexivity. Qed.

Lemma bind_raise {A B} (e : pyexn) (k : A -> M B) : bind (raise e) k = raise e.
Proof. reflexivity. Qed.

Lemma value_bind {A B} (m : M A) (k : A -> M B) :
  value (bind m k) = match value m with Ok a => value (k a) | Raise e => Raise e end.
Proof.
  destruct m as [out [a | e]]; simpl; [| reflexivity].
  destruct (k a); reflexivity.
Qed.

Lemma stdout_bind {A B} (m : M A) (k : A -> M B) :
  stdout (bind m k)
  = (stdout m ++ match value m with Ok a => stdout (k a) | Raise _ => [] end)%list.
Proof.
  destruct m as [out [a | e]]; simpl.
  - destruct (k a); reflexivity.
  - symmetry. apply app_nil_r.
Qed.

Lemma for_each_app {A S} (l1 l2 : list A) (body : S -> A -> M S) (s : S) :
  for_each (l1 ++ l2) body s = bind (for_each l1 body s) (for_each l2 body).
Proof.
  revert s. induction l1 as [| x l1 IH]; intros s; cbn [for_each app].
  - now rewrite bind_ret.
  - destruct (body s x) as [out [s' | e]]; [| reflexivity].
    unfold bind at 1 3. rewrite IH.
    destruct (for_each l1 body s') as [out1 [s1 | e1]]; simpl.
    + destruct (for_each l2 body s1). now rewrite app_assoc.
    + reflexivity.
Qed.

(** Loops whose bodies return the same values return the same value. *)
Lemma for_each_value_ext {A S} (l : list A) (f g : S -> A -> M S) (s : S) :
  (forall s x, value (f s x) = value (g s x)) ->
  value (for_each l f s) = value (for_each l g s).
Proof.
  intros Hfg. revert s. induction l as [| x l IH]; intros s; cbn [for_each]; [reflexivity |].
  rewrite !value_bind, Hfg. destruct (value (g s x)); auto.
Qed.

Lemma bind_ext {A B} (m : M A) (k k' : A -> M B) :
  (forall a, k a = k' a) -> bind m k = bind m k'.
Proof. intros H. destruct m as [out [a | e]]; simpl; [now rewrite H | reflexivity]. Qed.

Lemma value_bind_ext {A B} (m : M A) (k k' : A -> M B) :
  (forall a, value (k a) = value (k' a)) -> value (bind m k) = value (bind m k').
Proof. intros H. rewrite !value_bind. destruct (value m); auto. Qed.

Lemma for_each_ext {A S} (l : list A) (f g : S -> A -> M S) (s : S) :
  (forall s x, f s x = g s x) -> for_each l f s = for_each l g s.
Proof.
  intros Hfg. revert s. induction l as [| x l IH]; intros s; cbn [for_each]; [reflexivity |].
  rewrite Hfg. now apply bind_ext.
Qed.

(** Run the deterministic prefix of a computation. *)
Ltac py_step :=
  repeat first
    [ rewrite bind_ret
    | rewrite bind_raise
    | progress cbn [for_each str_lower getitem get iter lift truediv mul
                    fmap list_fmap field dict_lookup] ].

(** ** The matcher *)

Lemma lowered_set_strings (strs : list string) (acc : gset string) :
  for_each (PStr <$> strs)
    (fun (acc : gset string) x => v <- ret x ;; s <- str_lower v ;; ret ({[ s ]} ∪ acc)) acc
  = ret (list_to_set (lower <$> strs) ∪ acc).
Proof.
  revert acc. induction strs as [| s strs IH]; intros acc; py_step.
  - unfold ret. do 2 f_equal. set_solver.
  - rewrite IH. unfold ret. do 2 f_equal. set_solver.
Qed.

Lemma available_set_strings (available : list string) :
  lowered_set ret (PStr <$> available) = ret (list_to_set (lower <$> available)).
Proof.
  unfold lowered_set. rewrite lowered_set_strings. unfold ret. do 2 f_equal. set_solver.
Qed.

Lemma field_str_name (v : pyval) (s : string) :
  field v "name" ≫= str_of = Some s ->
  exists d, v = PDict d /\ dict_lookup d "name" = Some (PStr s).
Proof.
  destruct v as [| | | | | | d]; try discriminate. simpl.
  destruct (dict_lookup d "name") as [[] |] eqn:E; try discriminate.
  intros [= ->]. eauto.
Qed.

Lemma required_set_names (items : list pyval) (required : list string) (acc : gset string) :
  mapM (λ ingredient, field ingredient "name" ≫= str_of) items = Some required ->
  for_each items
    (fun (acc : gset string) x =>
       v <- getitem x "name" ;; s <- str_lower v ;; ret ({[ s ]} ∪ acc)) acc
  = ret (list_to_set (lower <$> required) ∪ acc).
Proof.
  rewrite mapM_Some. intros H. revert acc.
  induction H as [| x s items required Hx _ IH]; intros acc; py_step.
  - unfold ret. do 2 f_equal. set_solver.
  - apply field_str_name in Hx as (d & -> & Hd). py_step. rewrite Hd. py_step.
    rewrite IH. unfold ret. do 2 f_equal. set_solver.
Qed.

(** The size of the set difference is the number of distinct missing names. *)
Lemma size_missing (required available : list string) :
  size (list_to_set (C := gset string) (lower <$> required)
        ∖ list_to_set (lower <$> available))
  = length (missing required available).
Proof.
  unfold missing. rewrite <- (size_list_to_set (C := gset string)) by apply NoDup_remove_dups.
  f_equal. apply set_eq. intros x.
  rewrite elem_of_difference, !elem_of_list_to_set, elem_of_remove_dups,
    list_elem_of_difference. reflexivity.
Qed.

Lemma match_recipe_spec (available : list string) (max_missing : Z)
    (matching_recipes : list pyval) (recipe : pyval) :
  matchable recipe ->
  match_recipe (list_to_set (lower <$> available)) max_missing matching_recipes recipe
  = ret (matching_recipes ++ omap (λ r, if matches available max_missing r
                                         then field r "name" else None) [recipe]).
Proof.
  intros [[name Hname] [required Hreq]].
  cbn [omap list_omap]. unfold match_recipe, matches. rewrite Hreq.
  unfold required_names, entries in Hreq.
  destruct recipe as [| | | | | | d]; try discriminate.
  cbn [field] in Hname, Hreq.
  destruct (dict_lookup d "ingredients") as [[| | | | | items |] |] eqn:Hings; try discriminate.
  cbn in Hreq. py_step. rewrite Hings. py_step.
  unfold lowered_set. rewrite (required_set_names _ _ _ Hreq). py_step.
  replace (list_to_set (lower <$> required) ∪ ∅) with
    (list_to_set (C := gset string) (lower <$> required)) by set_solver.
  rewrite size_missing.
  destruct (Z.leb_spec (Z.of_nat (length (missing required available))) max_missing) as [Hle | Hgt].
  - rewrite bool_decide_eq_true_2 by exact Hle. rewrite Hname. py_step. reflexivity.
  - rewrite bool_decide_eq_false_2 by lia. now rewrite app_nil_r.
Qed.

Lemma matching_loop (db : list pyval) (available : list string) (max_missing : Z)
    (matching_recipes : list pyval) :
  Forall matchable db ->
  for_each db (match_recipe (list_to_set (lower <$> available)) max_missing) matching_recipes
  = ret (matching_recipes ++ matching_names db available max_missing).
Proof.
  intros Hdb. revert matching_recipes.
  induction Hdb as [| r db Hr _ IH]; intros acc; cbn [for_each].
  - unfold matching_names. cbn. now rewrite app_nil_r.
  - rewrite (match_recipe_spec _ _ _ _ Hr), bind_ret, IH.
    unfold matching_names. cbn [omap list_omap].
    destruct (if matches available max_missing r then field r "name" else None);
      cbn; now rewrite <- ?app_assoc, ?app_nil_r.
Qed.

Lemma find_recipies_strings (db : list pyval) (available : list string) (max_missing : Z) :
  Forall matchable db ->
  find_recipies db (PStr <$> available) max_missing
  = ret (matching_names db available max_missing).
Proof.
  intros Hdb. unfold find_recipies.
  rewrite available_set_strings, bind_ret. now rewrite matching_loop.
Qed.

(** A list whose lowered set could be built holds strings only. *)
Lemma lowered_set_inv (items : list pyval) (acc S : gset string) (out : list warning) :
  for_each items
    (fun (acc : gset string) x => v <- ret x ;; s <- str_lower v ;; ret ({[ s ]} ∪ acc)) acc
  = (out, Ok S) ->
  exists strs, items = PStr <$> strs.
Proof.
  revert acc out. induction items as [| x items IH]; intros acc out H.
  - now exists [].
  - cbn [for_each] in H.
    destruct x as [| | | | s | |]; try discriminate.
    rewrite !bind_ret in H. cbn [str_lower] in H. rewrite !bind_ret in H.
    apply IH in H as [strs ->]. now exists (s :: strs).
Qed.

Lemma find_recipies_inv (db : list pyval) (available : list pyval) (max_missing : Z)
    (l : list pyval) :
  value (find_recipies db available max_missing) = Ok l ->
  exists strs, available = PStr <$> strs.
Proof.
  unfold find_recipies, lowered_set. rewrite value_bind.
  destruct (for_each available _ ∅) as [out [S | e]] eqn:E; [| discriminate].
  intros _. eapply lowered_set_inv, E.
Qed.

Lemma missing_NoDup (required available : list string) : NoDup (missing required available).
Proof. apply NoDup_remove_dups. Qed.

Lemma elem_of_missing (x : string) (required available : list string) :
  x ∈ missing required available <-> x ∈ lower <$> required /\ x ∉ lower <$> available.
Proof. unfold missing. now rewrite elem_of_remove_dups, list_elem_of_difference. Qed.

(** More available ingredients: no more missing ones. *)
Lemma missing_extra (required available extras : list string) :
  length (missing required (available ++ extras)) <= length (missing required available).
Proof.
  apply submseteq_length, NoDup_submseteq; [apply missing_NoDup |].
  intros x. rewrite !elem_of_missing, fmap_app, elem_of_app. tauto.
Qed.

Lemma matches_max_missing (available : list string) (k k' : Z) (r : pyval) :
  (k <= k')%Z -> matches available k r = true -> matches available k' r = true.
Proof.
  unfold matches. destruct (required_names r); [| easy].
  rewrite !bool_decide_eq_true. lia.
Qed.

Lemma matches_extra (available extras : list string) (k : Z) (r : pyval) :
  matches available k r = true -> matches (available ++ extras) k r = true.
Proof.
  unfold matches. destruct (required_names r) as [required |]; [| easy].
  rewrite !bool_decide_eq_true. pose proof (missing_extra required available extras). lia.
Qed.

Lemma matching_names_weaken (db : list pyval) (available available' : list string)
    (k k' : Z) (n : pyval) :
  (forall r, matches available k r = true -> matches available' k' r = true) ->
  n ∈ matching_names db available k -> n ∈ matching_names db available' k'.
Proof.
  intros Hw. unfold matching_names. rewrite !list_elem_of_omap.
  intros (r & Hr & Hn). exists r. split; [exact Hr |].
  destruct (matches available k r) eqn:E; [| discriminate].
  now rewrite (Hw r E).
Qed.

(** ** The calculator *)

Lemma get_dict (v : pyval) (k : string) (dflt : pyval) :
  is_dict v = true -> get v k dflt = ret (default dflt (field v k)).
Proof.
  destruct v; try discriminate. intros _. cbn [get field].
  now destruct (dict_lookup d k).
Qed.

Lemma named_inv (r : pyval) :
  named r = true -> is_dict r = true /\ exists s, name_or_empty r = PStr s.
Proof.
  unfold named. rewrite andb_true_iff, bool_decide_eq_true.
  intros [Hd [s Hs]]. split; [exact Hd |].
  destruct (name_or_empty r); try discriminate. injection Hs as ->. eauto.
Qed.

(** On a catalog of named records the generator finds the first record the
    name designates. *)
Lemma next_match_named (db : list pyval) (recipe : string) :
  forallb named db = true ->
  next_match db (PStr recipe) = ret (first_match db recipe).
Proof.
  induction db as [| r db IH]; cbn [forallb next_match]; [reflexivity |].
  rewrite andb_true_iff. intros [Hr Hdb].
  apply named_inv in Hr as [Hd [s Hs]].
  rewrite (get_dict _ _ _ Hd). fold (name_or_empty r). rewrite Hs. py_step.
  unfold first_match. cbn [find]. unfold names at 1. rewrite Hs. cbn [str_of].
  destruct (String.eqb (lower s) (lower recipe)); [reflexivity |].
  now apply IH.
Qed.

(** The lookup only sees the lowercased name. *)
Lemma next_match_lower (db : list pyval) (recipe recipe' : string) :
  lower recipe = lower recipe' ->
  next_match db (PStr recipe) = next_match db (PStr recipe').
Proof.
  intros Hl. induction db as [| r db IH]; cbn [next_match]; [reflexivity |].
  destruct (get r "name" (PStr "")) as [out [n | e]]; [| reflexivity].
  unfold bind at 1 4.
  destruct (str_lower n) as [out' [a | e]]; [| reflexivity].
  unfold bind at 1 3. cbn [str_lower]. rewrite !bind_ret, Hl, IH. reflexivity.
Qed.

Lemma truediv_number (v : pyval) (y : float) :
  is_number v = true -> truediv v y = ret (number v / y)%float.
Proof.
  unfold is_number, number, truediv. destruct (to_double v); [| discriminate].
  intros _. exact (bind_ret a _).
Qed.

Lemma mul_number (v : pyval) (y : float) :
  is_number v = true -> mul v y = ret (number v * y)%float.
Proof.
  unfold is_number, number, mul. destruct (to_double v); [| discriminate].
  intros _. exact (bind_ret a _).
Qed.

Section Aggregation.

Variable MACROS_DB : gmap string pyval.
Variable recipe : pyval.

Lemma add_ingredient_skipped (total_macros : list (string * float)) (i : pyval) :
  is_dict i = true -> skipped MACROS_DB i = true ->
  exists w, add_ingredient MACROS_DB recipe total_macros i = ([w], Ok total_macros).
Proof.
  intros Hd Hs. unfold add_ingredient.
  rewrite !(get_dict _ _ _ Hd), !bind_ret.
  fold (name_of i) (weight_of i). unfold skipped in Hs.
  destruct (negb (truthy (name_of i)) || negb (truthy (weight_of i))) eqn:E.
  - eexists. reflexivity.
  - cbn [orb] in Hs. unfold nutrients in Hs.
    destruct (name_of i) as [| | | | s | |] eqn:En; try discriminate.
    py_step. rewrite Hs. eexists. reflexivity.
Qed.

Lemma add_ingredient_usable (f : string -> float) (i : pyval) :
  skipped MACROS_DB i = false -> usable MACROS_DB i = true ->
  add_ingredient MACROS_DB recipe (totals_of f) i
  = ret (totals_of (λ macro, (f macro + contribution MACROS_DB macro i)%float)).
Proof.
  intros Hs Hu. unfold usable in Hu. cbn [forallb macro_keys] in Hu.
  repeat rewrite andb_true_iff in Hu.
  destruct Hu as [[[[Hd Hn] Hw] He] (Hp & Hc & Hf & Hk & _)].
  unfold add_ingredient.
  rewrite !(get_dict _ _ _ Hd), !bind_ret.
  fold (name_of i) (weight_of i). unfold skipped in Hs.
  apply orb_false_iff in Hs as [Hs Hs']. rewrite Hs.
  rewrite bool_decide_eq_true in Hn. destruct Hn as [s Hn].
  assert (Hnut : name_of i = PStr s
                 /\ nutrients MACROS_DB i = default PNone (MACROS_DB !! lower s)).
  { unfold nutrients. destruct (name_of i); try discriminate.
    injection Hn as ->. split; reflexivity. }
  destruct Hnut as [Hname Hnut]. rewrite Hname in *. py_step.
  rewrite <- Hnut. rewrite Hs'.
  rewrite (truediv_number _ _ Hw), bind_ret.
  cbn [for_each macro_keys].
  rewrite !(get_dict _ _ _ He), !bind_ret.
  fold (per_100g MACROS_DB i "protein") (per_100g MACROS_DB i "carbs")
       (per_100g MACROS_DB i "fat") (per_100g MACROS_DB i "calories").
  rewrite (mul_number _ _ Hp), !bind_ret, (mul_number _ _ Hc), !bind_ret,
    (mul_number _ _ Hf), !bind_ret, (mul_number _ _ Hk), !bind_ret.
  reflexivity.
Qed.

End Aggregation.

Section Totals.

Variable MACROS_DB : gmap string pyval.
Variable recipe : pyval.

Lemma aggregation_loop (items : list pyval) (f : string -> float) :
  forallb (well_formed_entry MACROS_DB) items = true ->
  value (for_each items (add_ingredient MACROS_DB recipe) (totals_of f))
  = Ok (totals_of (λ macro,
          fold_left (λ acc i, (acc + contribution MACROS_DB macro i)%float)
            (List.filter (λ i, negb (skipped MACROS_DB i)) items) (f macro))).
Proof.
  revert f. induction items as [| i items IH]; intros f; cbn [forallb for_each List.filter].
  - reflexivity.
  - rewrite andb_true_iff. intros [Hi Hitems].
    unfold well_formed_entry in Hi. apply andb_true_iff in Hi as [Hd Hi].
    destruct (skipped MACROS_DB i) eqn:Hs; cbn [negb].
    + destruct (add_ingredient_skipped MACROS_DB recipe (totals_of f) i Hd Hs) as [w ->].
      rewrite value_bind. cbn [value snd]. now apply IH.
    + cbn [orb] in Hi. rewrite (add_ingredient_usable _ _ _ _ Hs Hi), bind_ret.
      cbn [fold_left]. now apply IH.
Qed.

Lemma aggregate_well_formed (items : list pyval) :
  forallb (well_formed_entry MACROS_DB) items = true ->
  value (aggregate MACROS_DB recipe items) = Ok (macros_of MACROS_DB items).
Proof.
  intros Hwf. unfold aggregate. rewrite value_bind.
  change zero_totals with (totals_of (λ _, 0%float)).
  rewrite (aggregation_loop _ _ Hwf). reflexivity.
Qed.

(** A skipped entry leaves the result of the aggregation unchanged. *)
Lemma aggregate_skip (pre post : list pyval) (i : pyval) :
  is_dict i = true -> skipped MACROS_DB i = true ->
  value (aggregate MACROS_DB recipe (pre ++ i :: post))
  = value (aggregate MACROS_DB recipe (pre ++ post)).
Proof.
  intros Hd Hs. unfold aggregate. rewrite !value_bind, !for_each_app, !value_bind.
  destruct (value (for_each pre (add_ingredient MACROS_DB recipe) zero_totals))
    as [t |]; [| reflexivity].
  cbn [for_each].
  destruct (add_ingredient_skipped MACROS_DB recipe t i Hd Hs) as [w ->].
  rewrite value_bind. reflexivity.
Qed.

End Totals.

Lemma entries_inv (r : pyval) (items : list pyval) :
  entries r = Some items ->
  exists d, r = PDict d /\ dict_lookup d "ingredients" = Some (PList items).
Proof.
  unfold entries. destruct r as [| | | | | | d]; try discriminate. cbn [field].
  destruct (dict_lookup d "ingredients") as [[| | | | | l |] |] eqn:E; try discriminate.
  intros [= ->]. eauto.
Qed.

(** Once the record is found, the result is the aggregation of its entries. *)
Lemma calculate_found (db : list pyval) (mdb : gmap string pyval) (recipe : string)
    (r : pyval) (items : list pyval) :
  forallb named db = true ->
  first_match db recipe = Some r ->
  entries r = Some items ->
  calculate_recipe_macros db mdb (PStr recipe) = aggregate mdb (PStr recipe) items.
Proof.
  intros Hdb Hr Hitems. unfold calculate_recipe_macros.
  rewrite (next_match_named _ _ Hdb), bind_ret, Hr.
  apply entries_inv in Hitems as (d & -> & Hd). py_step. rewrite Hd. py_step.
  reflexivity.
Qed.

Lemma calculate_not_found (db : list pyval) (mdb : gmap string pyval) (recipe : string) :
  forallb named db = true ->
  first_match db recipe = None ->
  calculate_recipe_macros db mdb (PStr recipe)
  = ([RecipeNotFound (PStr recipe)], Ok NotFound).
Proof.
  intros Hdb Hr. unfold calculate_recipe_macros.
  now rewrite (next_match_named _ _ Hdb), bind_ret, Hr.
Qed.

Lemma first_match_None (db : list pyval) (recipe : string) :
  Forall (λ r, names recipe r = false) db -> first_match db recipe = None.
Proof.
  unfold first_match. induction 1 as [| r db Hr _ IH]; cbn [find]; [reflexivity |].
  now rewrite Hr.
Qed.

Lemma total_all_skipped (mdb : gmap string pyval) (items : list pyval) :
  forallb (skipped mdb) items = true -> macros_of mdb items = zero_macros.
Proof.
  intros Hs. unfold macros_of, zero_macros, total.
  replace (List.filter (λ i, negb (skipped mdb i)) items) with (@nil pyval); [reflexivity |].
  induction items as [| i items IH]; [reflexivity |].
  cbn [forallb List.filter] in *. apply andb_true_iff in Hs as [-> Hs]. now apply IH.
Qed.

(** A falsy nutrient entry and no entry are the same to the calculator. *)
Lemma add_ingredient_delete (mdb : gmap string pyval) (key : string) (v : pyval)
    (recipe : pyval) (total_macros : list (string * float)) (i : pyval) :
  mdb !! key = Some v -> truthy v = false ->
  add_ingredient mdb recipe total_macros i
  = add_ingredient (delete key mdb) recipe total_macros i.
Proof.
  intros Hv Hf. unfold add_ingredient.
  apply bind_ext; intros n. apply bind_ext; intros w.
  destruct (negb (truthy n) || negb (truthy w)); [reflexivity |].
  apply bind_ext; intros k.
  destruct (decide (key = k)) as [<- | Hne].
  - rewrite lookup_delete_eq, Hv. cbn [default from_option id truthy negb]. rewrite Hf. reflexivity.
  - now rewrite lookup_delete_ne.
Qed.

(** The recipe name given to the calculator only shows in its warnings. *)
Lemma add_ingredient_value (mdb : gmap string pyval) (recipe recipe' : pyval)
    (total_macros : list (string * float)) (i : pyval) :
  value (add_ingredient mdb recipe total_macros i)
  = value (add_ingredient mdb recipe' total_macros i).
Proof.
  unfold add_ingredient.
  apply value_bind_ext; intros n. apply value_bind_ext; intros w.
  destruct (negb (truthy n) || negb (truthy w)); [reflexivity |].
  apply value_bind_ext; intros k.
  destruct (negb (truthy (default PNone (mdb !! k)))); reflexivity.
Qed.

Lemma lower_empty (s : string) : lower s = "" -> s = "".
Proof. destruct s; [reflexivity | discriminate]. Qed.

Lemma list_difference_cons_absent (l k : list string) (x : string) :
  x ∉ l -> list_difference l (x :: k) = list_difference l k.
Proof.
  induction l as [| a l IH]; [reflexivity |].
  rewrite not_elem_of_cons. intros [Hne Hl]. cbn [list_difference].
  rewrite (IH Hl).
  destruct (decide_rel elem_of a (x :: k)) as [Hin | Hout],
           (decide_rel elem_of a k) as [Hin' | Hout']; try reflexivity.
  - apply elem_of_cons in Hin as [-> | Hin]; [now destruct Hne | now destruct Hout'].
  - destruct Hout. now apply elem_of_cons; right.
Qed.

Lemma matching_names_empty_name (db : list pyval) (available : list string) (k : Z) :
  Forall (λ r, "" ∉ default [] (required_names r)) db ->
  matching_names db ("" :: available) k = matching_names db available k.
Proof.
  unfold matching_names. induction 1 as [| r db Hr _ IH]; [reflexivity |].
  cbn [omap list_omap]. rewrite IH. f_equal.
  unfold matches. destruct (required_names r) as [required |]; [| reflexivity].
  cbn [default from_option id] in Hr.
  unfold missing. cbn [fmap list_fmap lower].
  rewrite list_difference_cons_absent; [reflexivity |].
  intros Hin. apply list_elem_of_fmap in Hin as (s & Hs & Hin).
  symmetry in Hs. apply lower_empty in Hs as ->. contradiction.
Qed.

Lemma well_formed_named (mdb : gmap string pyval) (db : list pyval) :
  forallb (well_formed mdb) db = true -> forallb named db = true.
Proof.
  rewrite !forallb_forall. intros Hwf r Hr. specialize (Hwf r Hr).
  unfold well_formed in Hwf. now apply andb_true_iff in Hwf as [? _].
Qed.

(** On well-formed catalogs the calculator returns. *)
Lemma calculate_well_formed (db : list pyval) (mdb : gmap string pyval) (recipe : string) :
  forallb (well_formed mdb) db = true ->
  exists v, value (calculate_recipe_macros db mdb (PStr recipe)) = Ok v.
Proof.
  intros Hwf. pose proof (well_formed_named _ _ Hwf) as Hnamed.
  destruct (first_match db recipe) as [r |] eqn:Hr.
  - pose proof (find_some _ _ Hr) as [Hin _].
    rewrite forallb_forall in Hwf. specialize (Hwf r Hin). unfold well_formed in Hwf.
    apply andb_true_iff in Hwf as [_ Hitems].
    destruct (entries r) as [items |] eqn:He; [| discriminate].
    eexists. rewrite (calculate_found _ _ _ _ _ Hnamed Hr He).
    now apply aggregate_well_formed.
  - eexists. now rewrite (calculate_not_found _ _ _ Hnamed Hr).
Qed.

Lemma example_recipes_matchable : Forall matchable example_recipes.
Proof. repeat constructor; eexists; reflexivity. Qed.

(** The matcher indexes the name of every ingredient entry, where the
    calculator reads it with a default: one nameless entry in the catalog makes
    [find_recipies] raise on every input, the empty list included. *)
Lemma find_recipies_nameless_entry :
  value (find_recipies example_recipes_incomplete [] 2) = Raise KeyError.
Proof. vm_compute. reflexivity. Qed.

(** ** The claims *)

(** C1.  On a list of strings, [find_recipies] returns, without printing or
    raising, the names of the catalog records whose required names, lowercased
    and counted once each, are missing from the lowercased available names at
    most [max_missing] times, in catalog order. *)
Theorem find_recipies_matching (db : list pyval) (available : list string) (max_missing : Z) :
  Forall matchable db ->
  find_recipies db (PStr <$> available) max_missing
  = ([], Ok (matching_names db available max_missing)).
Proof. apply find_recipies_strings. Qed.

Lemma find_recipies_matching_witness :
  find_recipies example_recipes (PStr <$> ["lettuce"; "Pepper"]) 1
  = ([], Ok [PStr "Omelette"; PStr "Salad"]).
Proof.
  exact (find_recipies_matching example_recipes ["lettuce"; "Pepper"] 1
           example_recipes_matchable).
Defined.

(** C2.  For a recipe name that designates a catalog record with well-formed
    ingredient entries, [calculate_recipe_macros] returns the four totals
    [macros_of]: for each macro, the sum over the entries that are not
    skipped of [nutrient_per_100g[macro] * (weight_grams / 100.0)], an absent
    macro field counting 0, rounded to one decimal.  On the Omelette scenario
    the result is 19.5, 1.5, 16.5 and 232.5. *)
Theorem calculate_recipe_macros_totals :
  (forall (db : list pyval) (mdb : gmap string pyval) (recipe : string)
          (r : pyval) (items : list pyval),
      forallb named db = true ->
      first_match db recipe = Some r ->
      entries r = Some items ->
      forallb (well_formed_entry mdb) items = true ->
      value (calculate_recipe_macros db mdb (PStr recipe)) = Ok (macros_of mdb items))
  /\ value (calculate_recipe_macros [Omelette] example_macros (PStr "Omelette"))
     = Ok (PDict [("protein", PFloat 19.5); ("carbs", PFloat 1.5);
                  ("fat", PFloat 16.5); ("calories", PFloat 232.5)]).
Proof.
  split.
  - intros db mdb recipe r items Hdb Hr Hitems Hwf.
    rewrite (calculate_found _ _ _ _ _ Hdb Hr Hitems).
    now apply aggregate_well_formed.
  - vm_compute. reflexivity.
Qed.

Lemma calculate_recipe_macros_totals_witness :
  value (calculate_recipe_macros example_recipes example_macros (PStr "FRITTATA"))
  = Ok (PDict [("protein", PFloat 19.5); ("carbs", PFloat 1.5);
               ("fat", PFloat 16.5); ("calories", PFloat 232.5)]).
Proof.
  apply (proj1 calculate_recipe_macros_totals example_recipes example_macros "FRITTATA"
           Frittata
           [ingredient "Egg" 100; ingredient "truffle" 5; ingredient "egg" 50]);
    vm_compute; reflexivity.
Defined.

(** C3.  A recipe name that designates no catalog record, compared without
    case, yields the warning and [None]; that outcome is not the zero-filled
    numeric result. *)
Theorem calculate_recipe_macros_not_found (db : list pyval) (mdb : gmap string pyval)
    (recipe : string) :
  forallb named db = true ->
  Forall (λ r, names recipe r = false) db ->
  calculate_recipe_macros db mdb (PStr recipe)
  = ([RecipeNotFound (PStr recipe)], Ok NotFound)
  /\ value (calculate_recipe_macros db mdb (PStr recipe)) <> Ok zero_macros.
Proof.
  intros Hdb Hno. apply first_match_None in Hno.
  rewrite (calculate_not_found _ _ _ Hdb Hno). split; [reflexivity | discriminate].
Qed.

Lemma calculate_recipe_macros_not_found_witness :
  calculate_recipe_macros example_recipes_incomplete example_macros
    (PStr "totally-unknown-recipe")
  = ([RecipeNotFound (PStr "totally-unknown-recipe")], Ok NotFound)
  /\ value (calculate_recipe_macros example_recipes_incomplete example_macros
              (PStr "totally-unknown-recipe")) <> Ok zero_macros.
Proof.
  apply calculate_recipe_macros_not_found; [reflexivity |].
  repeat constructor.
Defined.

(** C4.  A found recipe whose entries are all skipped yields the numeric
    result with four zeros, which is not the not-found outcome. *)
Theorem all_skipped_yields_zero (db : list pyval) (mdb : gmap string pyval)
    (recipe : string) (r : pyval) (items : list pyval) :
  forallb named db = true ->
  first_match db recipe = Some r ->
  entries r = Some items ->
  forallb (λ i, is_dict i && skipped mdb i) items = true ->
  value (calculate_recipe_macros db mdb (PStr recipe)) = Ok zero_macros
  /\ value (calculate_recipe_macros db mdb (PStr recipe)) <> Ok NotFound.
Proof.
  intros Hdb Hr Hitems Hs.
  assert (Hwf : forallb (well_formed_entry mdb) items = true
                /\ forallb (skipped mdb) items = true).
  { clear Hitems. induction items as [| i items IH]; [split; reflexivity |].
    cbn [forallb] in *. apply andb_true_iff in Hs as [Hi Hs].
    apply andb_true_iff in Hi as [Hd Hi]. destruct (IH Hs) as [IH1 IH2].
    rewrite IH1, IH2. unfold well_formed_entry. now rewrite Hd, Hi. }
  destruct Hwf as [Hwf Hall].
  rewrite (calculate_found _ _ _ _ _ Hdb Hr Hitems), (aggregate_well_formed _ _ _ Hwf),
    (total_all_skipped _ _ Hall).
  split; [reflexivity | discriminate].
Qed.

Lemma all_skipped_yields_zero_witness :
  value (calculate_recipe_macros example_recipes_incomplete example_macros
           (PStr "leftovers")) = Ok zero_macros
  /\ value (calculate_recipe_macros example_recipes_incomplete example_macros
              (PStr "leftovers")) <> Ok NotFound.
Proof.
  apply (all_skipped_yields_zero example_recipes_incomplete example_macros "leftovers"
           Leftovers
           [PDict [("weight_grams", PInt 50)]; ingredient "" 10;
            PDict [("name", PStr "salt")]; ingredient "egg" 0; ingredient "truffle" 5]);
    vm_compute; reflexivity.
Defined.

(** C5.  An entry of a found recipe that is skipped leaves the totals as they
    are, and the result is the one computed from the remaining entries: the
    calculation goes on after it. *)
Theorem skipped_entry_is_ignored (db : list pyval) (mdb : gmap string pyval)
    (recipe : string) (r : pyval) (pre post : list pyval) (i : pyval) :
  forallb named db = true ->
  first_match db recipe = Some r ->
  entries r = Some (pre ++ i :: post) ->
  is_dict i = true ->
  skipped mdb i = true ->
  (forall total_macros,
      value (add_ingredient mdb (PStr recipe) total_macros i) = Ok total_macros)
  /\ value (calculate_recipe_macros db mdb (PStr recipe))
     = value (aggregate mdb (PStr recipe) (pre ++ post)).
Proof.
  intros Hdb Hr Hitems Hd Hs. split.
  - intros t. now destruct (add_ingredient_skipped mdb (PStr recipe) t i Hd Hs) as [w ->].
  - rewrite (calculate_found _ _ _ _ _ Hdb Hr Hitems). now apply aggregate_skip.
Qed.

Lemma skipped_entry_is_ignored_witness :
  (forall total_macros,
      value (add_ingredient example_macros (PStr "Frittata") total_macros
               (ingredient "truffle" 5)) = Ok total_macros)
  /\ value (calculate_recipe_macros example_recipes example_macros (PStr "Frittata"))
     = value (aggregate example_macros (PStr "Frittata")
                ([ingredient "Egg" 100] ++ [ingredient "egg" 50])).
Proof.
  apply (skipped_entry_is_ignored example_recipes example_macros "Frittata" Frittata
           [ingredient "Egg" 100] [ingredient "egg" 50] (ingredient "truffle" 5));
    vm_compute; reflexivity.
Defined.

(** C6, as the code has it.  On a catalog it can read, [find_recipies]
    returns for every list of strings, the empty list and empty strings
    included, and [calculate_recipe_macros] returns for every string; an
    empty string among the available ingredients changes nothing when no
    catalog record lists an ingredient with an empty name. *)
Theorem string_inputs_do_not_raise :
  (forall (db : list pyval) (available : list string) (max_missing : Z),
      Forall matchable db ->
      exists l, find_recipies db (PStr <$> available) max_missing = ([], Ok l))
  /\ (forall (db : list pyval) (mdb : gmap string pyval) (recipe : string),
         forallb (well_formed mdb) db = true ->
         exists v, value (calculate_recipe_macros db mdb (PStr recipe)) = Ok v)
  /\ (forall (db : list pyval) (available : list string) (max_missing : Z),
         Forall matchable db ->
         Forall (λ r, "" ∉ default [] (required_names r)) db ->
         find_recipies db (PStr <$> "" :: available) max_missing
         = find_recipies db (PStr <$> available) max_missing).
Proof.
  split; [| split].
  - intros db available k Hdb. eexists. now apply find_recipies_strings.
  - apply calculate_well_formed.
  - intros db available k Hdb Hne.
    rewrite !find_recipies_strings by assumption.
    now rewrite matching_names_empty_name.
Qed.

Lemma string_inputs_do_not_raise_witness :
  (exists l, find_recipies example_recipes (PStr <$> [""; "egg"]) 0 = ([], Ok l))
  /\ (exists v, value (calculate_recipe_macros example_recipes_incomplete example_macros
                         (PStr "")) = Ok v)
  /\ find_recipies example_recipes (PStr <$> "" :: ["egg"]) 0
     = find_recipies example_recipes (PStr <$> ["egg"]) 0.
Proof.
  destruct string_inputs_do_not_raise as (Hfind & Hcalc & Hempty).
  split; [| split].
  - apply Hfind, example_recipes_matchable.
  - apply Hcalc. vm_compute. reflexivity.
  - apply Hempty; [apply example_recipes_matchable |].
    repeat constructor; vm_compute; intros H; repeat (apply elem_of_cons in H as [H | H]; [discriminate |]); now apply elem_of_nil in H.
Defined.

(** C6 fails as stated: an element that is not a string raises in
    [find_recipies], a recipe name that is not a string raises in
    [calculate_recipe_macros], and an empty available name does match a
    catalog ingredient whose name is empty. *)
Lemma wrong_element_type_raises :
  value (find_recipies example_recipes [PStr "egg"; PInt 5] 2) = Raise AttributeError
  /\ value (calculate_recipe_macros example_recipes example_macros (PInt 5))
     = Raise AttributeError
  /\ value (find_recipies [Broth] [PStr ""] 0) = Ok [PStr "Broth"]
  /\ value (find_recipies [Broth] [] 0) = Ok [].
Proof. repeat split; vm_compute; reflexivity. Qed.

(** C7.  A name returned with [max_missing = k] is returned with every
    larger [k']. *)
Theorem find_recipies_monotone (db : list pyval) (available : list pyval) (k k' : Z)
    (l : list pyval) (n : pyval) :
  Forall matchable db ->
  (k < k')%Z ->
  value (find_recipies db available k) = Ok l ->
  n ∈ l ->
  exists l', value (find_recipies db available k') = Ok l' /\ n ∈ l'.
Proof.
  intros Hdb Hk Hl Hn.
  destruct (find_recipies_inv _ _ _ _ Hl) as [strs ->].
  rewrite find_recipies_strings in Hl by assumption. injection Hl as <-.
  rewrite find_recipies_strings by assumption. eexists. split; [reflexivity |].
  revert Hn. apply matching_names_weaken.
  intros r. apply matches_max_missing. lia.
Qed.

Lemma find_recipies_monotone_witness :
  exists l', value (find_recipies example_recipes [PStr "lettuce"] 2) = Ok l'
             /\ PStr "Salad" ∈ l'.
Proof.
  apply (find_recipies_monotone example_recipes [PStr "lettuce"] 1 2
           [PStr "Omelette"; PStr "Salad"] (PStr "Salad")).
  - apply example_recipes_matchable.
  - lia.
  - vm_compute. reflexivity.
  - apply elem_of_cons. right. apply elem_of_cons. now left.
Defined.

(** C8.  A name returned for the available list [A] is returned for
    [A ++ extras]. *)
Theorem extra_ingredients_are_harmless (db : list pyval) (available : list pyval)
    (extras : list string) (max_missing : Z) (l : list pyval) (n : pyval) :
  Forall matchable db ->
  value (find_recipies db available max_missing) = Ok l ->
  n ∈ l ->
  exists l', value (find_recipies db (available ++ (PStr <$> extras)) max_missing) = Ok l'
             /\ n ∈ l'.
Proof.
  intros Hdb Hl Hn.
  destruct (find_recipies_inv _ _ _ _ Hl) as [strs ->].
  rewrite find_recipies_strings in Hl by assumption. injection Hl as <-.
  rewrite <- fmap_app, find_recipies_strings by assumption.
  eexists. split; [reflexivity |].
  revert Hn. apply matching_names_weaken.
  intros r. apply matches_extra.
Qed.

Lemma extra_ingredients_are_harmless_witness :
  exists l', value (find_recipies example_recipes
                      ([PStr "lettuce"] ++ (PStr <$> ["saffron"; "Egg"])) 1) = Ok l'
             /\ PStr "Salad" ∈ l'.
Proof.
  apply (extra_ingredients_are_harmless example_recipes [PStr "lettuce"]
           ["saffron"; "Egg"] 1 [PStr "Omelette"; PStr "Salad"] (PStr "Salad")).
  - apply example_recipes_matchable.
  - vm_compute. reflexivity.
  - apply elem_of_cons. right. apply elem_of_cons. now left.
Defined.

(** C9.  Inputs that are equal after lowercasing give the same results: the
    same run of [find_recipies], and the same value of
    [calculate_recipe_macros]. *)
Theorem case_insensitive (db : list pyval) (mdb : gmap string pyval) :
  (forall (available available' : list string) (max_missing : Z),
      lower <$> available = lower <$> available' ->
      find_recipies db (PStr <$> available) max_missing
      = find_recipies db (PStr <$> available') max_missing)
  /\ (forall recipe recipe' : string,
         lower recipe = lower recipe' ->
         value (calculate_recipe_macros db mdb (PStr recipe))
         = value (calculate_recipe_macros db mdb (PStr recipe'))).
Proof.
  split.
  - intros available available' k Hl. unfold find_recipies.
    now rewrite !available_set_strings, Hl.
  - intros recipe recipe' Hl. unfold calculate_recipe_macros.
    rewrite (next_match_lower db _ _ Hl).
    apply value_bind_ext. intros [r |]; [| reflexivity].
    apply value_bind_ext. intros ingredients.
    apply value_bind_ext. intros items.
    rewrite !value_bind.
    rewrite (for_each_value_ext items _ (add_ingredient mdb (PStr recipe'))).
    + reflexivity.
    + intros s x. apply add_ingredient_value.
Qed.

Lemma case_insensitive_witness :
  find_recipies example_recipes (PStr <$> ["LETTUCE"; "Egg"]) 0
  = find_recipies example_recipes (PStr <$> ["lettuce"; "eGG"]) 0
  /\ value (calculate_recipe_macros example_recipes example_macros (PStr "OMELETTE"))
     = value (calculate_recipe_macros example_recipes example_macros (PStr "omelette")).
Proof.
  destruct (case_insensitive example_recipes example_macros) as [Hfind Hcalc].
  split; [apply Hfind | apply Hcalc]; reflexivity.
Defined.

(** C10.  An ingredient whose lowercased name has a falsy nutrient entry is
    skipped with the no-macro-data warning, and the whole run is the one of
    the table without that entry. *)
Theorem falsy_nutrient_entry_is_no_entry (db : list pyval) (mdb : gmap string pyval)
    (key : string) (v : pyval) :
  mdb !! key = Some v ->
  truthy v = false ->
  (forall (recipe : pyval) (total_macros : list (string * float)) (i : pyval) (s : string),
      is_dict i = true -> name_of i = PStr s -> lower s = key ->
      truthy (name_of i) = true -> truthy (weight_of i) = true ->
      add_ingredient mdb recipe total_macros i
      = ([NoMacroData (PStr s) recipe], Ok total_macros))
  /\ (forall recipe : pyval,
         calculate_recipe_macros db mdb recipe
         = calculate_recipe_macros db (delete key mdb) recipe).
Proof.
  intros Hv Hf. split.
  - intros recipe t i s Hd Hname Hkey Hn Hw. unfold add_ingredient.
    rewrite !(get_dict _ _ _ Hd), !bind_ret. fold (name_of i) (weight_of i).
    rewrite Hn, Hw, Hname. py_step. rewrite Hkey, Hv.
    cbn [default from_option id]. rewrite Hf. reflexivity.
  - intros recipe. unfold calculate_recipe_macros.
    apply bind_ext. intros [r |]; [| reflexivity].
    apply bind_ext. intros ingredients. apply bind_ext. intros items.
    rewrite (for_each_ext items _ (add_ingredient (delete key mdb) recipe)).
    + reflexivity.
    + intros t i. now apply add_ingredient_delete with (v := v).
Qed.

Lemma falsy_nutrient_entry_is_no_entry_witness :
  add_ingredient example_macros_empty_entry (PStr "salad") zero_totals
    (ingredient "Lettuce" 80)
  = ([NoMacroData (PStr "Lettuce") (PStr "salad")], Ok zero_totals)
  /\ calculate_recipe_macros example_recipes example_macros_empty_entry (PStr "salad")
     = calculate_recipe_macros example_recipes
         (delete "lettuce" example_macros_empty_entry) (PStr "salad").
Proof.
  destruct (falsy_nutrient_entry_is_no_entry example_recipes example_macros_empty_entry
              "lettuce" (PDict []) eq_refl eq_refl) as [Hskip Hrun].
  split; [apply Hskip; reflexivity | apply Hrun].
Defined.

(** * Further properties of the two tools *)

(** ** What [find_recipies] raises and prints *)

Lemma lowered_set_non_string (items : list pyval) (acc : gset string) :
  forallb is_str items = false ->
  for_each items
    (fun (acc : gset string) x => v <- ret x ;; s <- str_lower v ;; ret ({[ s ]} ∪ acc)) acc
  = raise AttributeError.
Proof.
  revert acc. induction items as [| x items IH]; intros acc H; [discriminate |].
  cbn [forallb for_each] in *.
  destruct x as [| | | | s | |]; try reflexivity.
  cbn [is_str andb] in H. py_step. now apply IH.
Qed.

(** X1.  A list with an element that is not a string makes [find_recipies]
    raise [AttributeError], on every catalog (the empty one included) and for
    every [max_missing]: the available names are lowercased before the
    catalog is looked at. *)
Theorem find_recipies_non_string (db : list pyval) (available : list pyval)
    (max_missing : Z) :
  forallb is_str available = false ->
  find_recipies db available max_missing = ([], Raise AttributeError).
Proof.
  intros H. unfold find_recipies, lowered_set.
  now rewrite (lowered_set_non_string _ _ H).
Qed.

Lemma find_recipies_non_string_witness :
  find_recipies [] [PStr "egg"; PNone; PStr "milk"] 2 = ([], Raise AttributeError).
Proof. apply find_recipies_non_string. reflexivity. Defined.

Lemma silent_ret {A} (a : A) : silent (ret a).
Proof. reflexivity. Qed.

Lemma silent_raise {A} (e : pyexn) : silent (@raise A e).
Proof. reflexivity. Qed.

Lemma silent_bind {A B} (m : M A) (k : A -> M B) :
  silent m -> (forall a, silent (k a)) -> silent (bind m k).
Proof.
  unfold silent. intros Hm Hk. rewrite stdout_bind, Hm.
  destruct (value m); [apply Hk | reflexivity].
Qed.

Lemma silent_for_each {A S} (l : list A) (body : S -> A -> M S) (s : S) :
  (forall s x, silent (body s x)) -> silent (for_each l body s).
Proof.
  intros Hb. revert s. induction l as [| x l IH]; intros s; cbn [for_each].
  - apply silent_ret.
  - apply silent_bind; auto.
Qed.

Lemma silent_getitem (v : pyval) (k : string) : silent (getitem v k).
Proof. destruct v; try reflexivity. cbn. now destruct (dict_lookup d k). Qed.

Lemma silent_str_lower (v : pyval) : silent (str_lower v).
Proof. now destruct v. Qed.

Lemma silent_iter (v : pyval) : silent (iter v).
Proof. now destruct v. Qed.

Lemma silent_lowered_set (f : pyval -> M pyval) (items : list pyval) :
  (forall x, silent (f x)) -> silent (lowered_set f items).
Proof.
  intros Hf. apply silent_for_each. intros acc x.
  apply silent_bind; [apply Hf | intros v].
  apply silent_bind; [apply silent_str_lower | intros s; apply silent_ret].
Qed.

(** X2.  [find_recipies] prints nothing, whatever the catalog and the
    arguments are and whether it returns or raises. *)
Theorem find_recipies_silent (db : list pyval) (available : list pyval) (max_missing : Z) :
  stdout (find_recipies db available max_missing) = [].
Proof.
  apply silent_bind; [apply silent_lowered_set; intros; apply silent_ret | intros S].
  apply silent_for_each. intros acc r. unfold match_recipe.
  apply silent_bind; [apply silent_getitem | intros ingredients].
  apply silent_bind; [apply silent_iter | intros items].
  apply silent_bind; [apply silent_lowered_set; intros; apply silent_getitem | intros R].
  destruct (_ <=? _)%Z; [| apply silent_ret].
  apply silent_bind; [apply silent_getitem | intros; apply silent_ret].
Qed.

(** ** The bound [max_missing] *)

Lemma missing_length (required available : list string) :
  length (missing required available) <= length required.
Proof.
  rewrite <- (length_fmap lower required).
  apply submseteq_length, NoDup_submseteq; [apply missing_NoDup |].
  intros x. rewrite elem_of_missing. tauto.
Qed.

Lemma missing_nil_iff (required available : list string) :
  missing required available = [] <->
  forall x, x ∈ required -> lower x ∈ lower <$> available.
Proof.
  split.
  - intros Hnil x Hx.
    destruct (decide (lower x ∈ lower <$> available)) as [Hin | Hout]; [exact Hin |].
    assert (Hm : lower x ∈ missing required available).
    { apply elem_of_missing. split; [now apply list_elem_of_fmap_2 | exact Hout]. }
    rewrite Hnil in Hm. now apply elem_of_nil in Hm.
  - intros Hall. destruct (missing required available) as [| y l] eqn:E; [reflexivity |].
    assert (Hy : y ∈ missing required available) by (rewrite E; left).
    apply elem_of_missing in Hy as [Hy Hout].
    apply list_elem_of_fmap in Hy as (x & -> & Hx). now destruct Hout; apply Hall.
Qed.

(** X3.  With a negative [max_missing] no record matches: on a readable
    catalog the result is the empty list for every list of strings. *)
Theorem find_recipies_negative (db : list pyval) (available : list string)
    (max_missing : Z) :
  Forall matchable db ->
  (max_missing < 0)%Z ->
  find_recipies db (PStr <$> available) max_missing = ([], Ok []).
Proof.
  intros Hdb Hneg. rewrite find_recipies_strings by assumption.
  unfold ret. do 2 f_equal. unfold matching_names.
  induction db as [| r db IH]; [reflexivity |].
  apply Forall_cons in Hdb as [_ Hdb]. cbn [omap list_omap].
  unfold matches at 1. destruct (required_names r) as [required |]; [| now apply IH].
  rewrite bool_decide_eq_false_2 by lia. now apply IH.
Qed.

Lemma find_recipies_negative_witness :
  find_recipies example_recipes (PStr <$> ["egg"; "lettuce"; "tomato"; "truffle"]) (-1)
  = ([], Ok []).
Proof.
  apply find_recipies_negative; [apply example_recipes_matchable | lia].
Defined.

(** X4.  A record with at most [max_missing] ingredient entries is returned
    whatever the available list of strings holds, the empty list included. *)
Theorem find_recipies_small_recipe (db : list pyval) (available : list string)
    (max_missing : Z) (r n : pyval) (required : list string) :
  Forall matchable db ->
  r ∈ db ->
  field r "name" = Some n ->
  required_names r = Some required ->
  (Z.of_nat (length required) <= max_missing)%Z ->
  exists l, find_recipies db (PStr <$> available) max_missing = ([], Ok l) /\ n ∈ l.
Proof.
  intros Hdb Hr Hn Hreq Hlen. rewrite find_recipies_strings by assumption.
  eexists. split; [reflexivity |].
  unfold matching_names. apply list_elem_of_omap. exists r. split; [exact Hr |].
  unfold matches. rewrite Hreq, bool_decide_eq_true_2; [exact Hn |].
  pose proof (missing_length required available). lia.
Qed.

Lemma find_recipies_small_recipe_witness :
  exists l, find_recipies example_recipes (PStr <$> []) 2 = ([], Ok l) /\ PStr "Salad" ∈ l.
Proof.
  apply (find_recipies_small_recipe example_recipes [] 2 Salad (PStr "Salad")
           ["lettuce"; "tomato"]).
  - apply example_recipes_matchable.
  - apply elem_of_cons. right. apply elem_of_cons. now left.
  - reflexivity.
  - reflexivity.
  - simpl. lia.
Defined.

(** X5.  Called without [max_missing], the tool allows two missing
    ingredients: on a readable catalog and a list of strings it returns the
    names of the records with at most two distinct missing names, so a record
    with one or two ingredient entries is returned even for an empty list. *)
Theorem find_recipies_default (db : list pyval) (available : list string)
    (r n : pyval) (required : list string) :
  Forall matchable db ->
  r ∈ db ->
  field r "name" = Some n ->
  required_names r = Some required ->
  length required <= 2 ->
  find_recipies_call db (PStr <$> available) None
  = ([], Ok (matching_names db available 2))
  /\ n ∈ matching_names db available 2.
Proof.
  intros Hdb Hr Hn Hreq Hlen.
  unfold find_recipies_call. cbn [default from_option id]. unfold default_max_missing.
  rewrite find_recipies_strings by assumption. split; [reflexivity |].
  unfold matching_names. apply list_elem_of_omap. exists r. split; [exact Hr |].
  unfold matches. rewrite Hreq, bool_decide_eq_true_2; [exact Hn |].
  pose proof (missing_length required available). lia.
Qed.

Lemma find_recipies_default_witness :
  find_recipies_call example_recipes (PStr <$> []) None
  = ([], Ok (matching_names example_recipes [] 2))
  /\ PStr "Omelette" ∈ matching_names example_recipes [] 2.
Proof.
  apply (find_recipies_default example_recipes [] Omelette (PStr "Omelette") ["egg"]).
  - apply example_recipes_matchable.
  - apply elem_of_cons. now left.
  - reflexivity.
  - reflexivity.
  - simpl. lia.
Defined.

(** X6.  With [max_missing = 0] a name is returned exactly when it is the
    name of a record whose every required name is, in lower case, among the
    lowercased available names. *)
Theorem find_recipies_exact (db : list pyval) (available : list string) (n : pyval) :
  Forall matchable db ->
  exists l, find_recipies db (PStr <$> available) 0 = ([], Ok l)
    /\ (n ∈ l <->
        exists r required, r ∈ db /\ field r "name" = Some n
          /\ required_names r = Some required
          /\ forall x, x ∈ required -> lower x ∈ lower <$> available).
Proof.
  intros Hdb. rewrite find_recipies_strings by assumption.
  eexists. split; [reflexivity |].
  unfold matching_names. rewrite list_elem_of_omap. split.
  - intros (r & Hr & Hn). unfold matches in Hn.
    destruct (required_names r) as [required |] eqn:Hreq; [| discriminate].
    destruct (bool_decide _) eqn:Hb; [| discriminate].
    apply bool_decide_eq_true in Hb.
    exists r, required. repeat split; try assumption.
    apply missing_nil_iff. destruct (missing required available); [reflexivity |].
    simpl in Hb. lia.
  - intros (r & required & Hr & Hn & Hreq & Hall). exists r. split; [exact Hr |].
    unfold matches. rewrite Hreq.
    apply missing_nil_iff in Hall. rewrite Hall. exact Hn.
Qed.

Lemma find_recipies_exact_witness :
  exists l, find_recipies example_recipes (PStr <$> ["EGG"; "Truffle"]) 0 = ([], Ok l)
    /\ (PStr "Frittata" ∈ l <->
        exists r required, r ∈ example_recipes /\ field r "name" = Some (PStr "Frittata")
          /\ required_names r = Some required
          /\ forall x, x ∈ required -> lower x ∈ lower <$> ["EGG"; "Truffle"]).
Proof.
  apply find_recipies_exact, example_recipes_matchable.
Defined.

(** ** The available list as a set *)

(** X7.  [find_recipies] only sees the set of lowercased available names:
    two lists of strings with the same lowercased elements, in any order and
    with any repetitions, give the same run on every catalog. *)
Theorem find_recipies_available_set (db : list pyval) (available available' : list string)
    (max_missing : Z) :
  (forall x, x ∈ lower <$> available <-> x ∈ lower <$> available') ->
  find_recipies db (PStr <$> available) max_missing
  = find_recipies db (PStr <$> available') max_missing.
Proof.
  intros Hset. unfold find_recipies. rewrite !available_set_strings.
  replace (list_to_set (C := gset string) (lower <$> available'))
    with (list_to_set (C := gset string) (lower <$> available)); [reflexivity |].
  apply set_eq. intros x. now rewrite !elem_of_list_to_set.
Qed.

Lemma find_recipies_available_set_witness :
  find_recipies example_recipes (PStr <$> ["egg"; "Lettuce"; "EGG"]) 1
  = find_recipies example_recipes (PStr <$> ["lettuce"; "Egg"]) 1.
Proof.
  apply find_recipies_available_set. intros x. cbn [fmap list_fmap].
  rewrite !elem_of_cons, !elem_of_nil. vm_compute. tauto.
Defined.

(** ** The catalog as a sequence *)

Lemma bind_assoc {A B C} (m : M A) (f : A -> M B) (g : B -> M C) :
  bind (bind m f) g = bind m (fun a => bind (f a) g).
Proof.
  destruct m as [out [a | e]]; [| reflexivity]. unfold bind at 2 3.
  destruct (f a) as [out' [b | e']]; cbn [bind]; [| reflexivity].
  destruct (g b). now rewrite app_assoc.
Qed.

(** The accumulator of the loop is only appended to. *)
Lemma match_recipe_acc (S : gset string) (k : Z) (acc : list pyval) (r : pyval) :
  match_recipe S k acc r = bind (match_recipe S k [] r) (fun l => ret (acc ++ l)).
Proof.
  unfold match_recipe. rewrite !bind_assoc.
  apply bind_ext; intros ingredients. rewrite !bind_assoc.
  apply bind_ext; intros items. rewrite !bind_assoc.
  apply bind_ext; intros R.
  destruct (_ <=? _)%Z.
  - rewrite bind_assoc. apply bind_ext; intros name. now rewrite bind_ret.
  - now rewrite bind_ret, app_nil_r.
Qed.

Lemma matching_loop_acc (db : list pyval) (S : gset string) (k : Z) (acc : list pyval) :
  for_each db (match_recipe S k) acc
  = bind (for_each db (match_recipe S k) []) (fun l => ret (acc ++ l)).
Proof.
  revert acc. induction db as [| r db IH]; intros acc; cbn [for_each].
  - now rewrite bind_ret, app_nil_r.
  - rewrite (match_recipe_acc S k acc r), !bind_assoc.
    apply bind_ext; intros l. rewrite bind_ret.
    rewrite (IH (acc ++ l)), (IH l), bind_assoc.
    apply bind_ext; intros l'. now rewrite bind_ret, app_assoc.
Qed.

(** X8.  The catalog is scanned record by record: the result on
    [db1 ++ db2] is the result on [db1] followed by the result on [db2], and
    an exception raised on [db1] is raised on [db1 ++ db2]. *)
Theorem find_recipies_app (db1 db2 : list pyval) (available : list pyval) (max_missing : Z) :
  (forall l1 l2,
      value (find_recipies db1 available max_missing) = Ok l1 ->
      value (find_recipies db2 available max_missing) = Ok l2 ->
      value (find_recipies (db1 ++ db2) available max_missing) = Ok (l1 ++ l2))
  /\ (forall e,
         value (find_recipies db1 available max_missing) = Raise e ->
         value (find_recipies (db1 ++ db2) available max_missing) = Raise e).
Proof.
  unfold find_recipies. rewrite !value_bind.
  destruct (value (lowered_set ret available)) as [S | e0].
  - rewrite for_each_app, value_bind. split.
    + intros l1 l2 H1 H2. rewrite H1, matching_loop_acc, value_bind, H2. reflexivity.
    + intros e H1. now rewrite H1.
  - split; [discriminate | trivial].
Qed.

Lemma find_recipies_app_witness :
  value (find_recipies ([Omelette; Salad] ++ [Broth]) [PStr "tomato"; PStr ""] 1)
  = Ok ([PStr "Omelette"; PStr "Salad"] ++ [PStr "Broth"]).
Proof.
  apply (proj1 (find_recipies_app [Omelette; Salad] [Broth] [PStr "tomato"; PStr ""] 1));
    vm_compute; reflexivity.
Defined.

Lemma matching_names_sublist (db : list pyval) (available : list string) (k : Z) :
  matching_names db available k `sublist_of` all_names db.
Proof.
  unfold matching_names, all_names. induction db as [| r db IH]; cbn [omap list_omap].
  - constructor.
  - destruct (matches available k r); destruct (field r "name");
      try (now constructor); exact IH.
Qed.

(** X9.  The result is a subsequence of the catalog's names: it keeps the
    catalog order, is at most as long as the catalog, and repeats a name only
    if the catalog does. *)
Theorem find_recipies_sublist (db : list pyval) (available : list string) (max_missing : Z) :
  Forall matchable db ->
  exists l, find_recipies db (PStr <$> available) max_missing = ([], Ok l)
            /\ l `sublist_of` all_names db
            /\ length l <= length db
            /\ (NoDup (all_names db) -> NoDup l).
Proof.
  intros Hdb. rewrite find_recipies_strings by assumption.
  eexists. split; [reflexivity |].
  pose proof (matching_names_sublist db available max_missing) as Hsub.
  split; [exact Hsub |]. split.
  - apply sublist_length in Hsub. etransitivity; [exact Hsub |].
    unfold all_names. clear. induction db as [| r db IH]; [reflexivity |].
    cbn [omap list_omap length]. destruct (field r "name"); cbn [length]; lia.
  - intros Hnd. exact (sublist_NoDup _ _ Hnd Hsub).
Qed.

Lemma find_recipies_sublist_witness :
  exists l, find_recipies example_recipes (PStr <$> ["truffle"; "egg"]) 0 = ([], Ok l)
            /\ l `sublist_of` all_names example_recipes
            /\ length l <= length example_recipes
            /\ (NoDup (all_names example_recipes) -> NoDup l).
Proof. apply find_recipies_sublist, example_recipes_matchable. Defined.

(** ** Catalog records the matcher cannot read *)

Lemma required_set_nameless (named_entries rest : list pyval) (bad : pyval)
    (acc : gset string) :
  is_Some (mapM (λ i, field i "name" ≫= str_of) named_entries) ->
  is_dict bad = true ->
  field bad "name" = None ->
  for_each (named_entries ++ bad :: rest)
    (fun (acc : gset string) x =>
       v <- getitem x "name" ;; s <- str_lower v ;; ret ({[ s ]} ∪ acc)) acc
  = raise KeyError.
Proof.
  intros [required Hreq] Hd Hbad.
  rewrite for_each_app, (required_set_names _ _ _ Hreq), bind_ret. cbn [for_each].
  destruct bad as [| | | | | | d]; try discriminate.
  cbn [field] in Hbad. cbn [getitem]. now rewrite Hbad.
Qed.

(** X10.  An ingredient entry without a name makes [find_recipies] raise
    [KeyError] for every list of strings and every [max_missing], as soon as
    the records before it are readable: the matcher indexes the name that the
    calculator reads with a default. *)
Theorem find_recipies_nameless (pre post : list pyval) (r : pyval)
    (named_entries rest : list pyval) (bad : pyval)
    (available : list string) (max_missing : Z) :
  Forall matchable pre ->
  entries r = Some (named_entries ++ bad :: rest) ->
  is_Some (mapM (λ i, field i "name" ≫= str_of) named_entries) ->
  is_dict bad = true ->
  field bad "name" = None ->
  find_recipies (pre ++ r :: post) (PStr <$> available) max_missing
  = ([], Raise KeyError).
Proof.
  intros Hpre Hr Hnamed Hd Hbad. unfold find_recipies.
  rewrite available_set_strings, bind_ret, for_each_app.
  rewrite (matching_loop _ _ _ _ Hpre), bind_ret. cbn [for_each].
  apply entries_inv in Hr as (d & -> & Hings).
  unfold match_recipe at 1. py_step. rewrite Hings. py_step.
  unfold lowered_set. now rewrite (required_set_nameless _ _ _ _ Hnamed Hd Hbad).
Qed.

Lemma find_recipies_nameless_witness :
  find_recipies ([Omelette] ++ Leftovers :: [Salad]) (PStr <$> ["egg"]) 2
  = ([], Raise KeyError).
Proof.
  apply (find_recipies_nameless [Omelette] [Salad] Leftovers []
           [ingredient "" 10; PDict [("name", PStr "salt")]; ingredient "egg" 0;
            ingredient "truffle" 5]
           (PDict [("weight_grams", PInt 50)])).
  - repeat constructor; eexists; reflexivity.
  - reflexivity.
  - eexists. reflexivity.
  - reflexivity.
  - reflexivity.
Defined.

(** ** The lookup of [calculate_recipe_macros] *)

Lemma next_match_hit (pre post : list pyval) (r : pyval) (recipe : string) :
  forallb named pre = true ->
  first_match pre recipe = None ->
  named r = true ->
  names recipe r = true ->
  next_match (pre ++ r :: post) (PStr recipe) = ret (Some r).
Proof.
  intros Hpre Hnone Hr Hhit.
  induction pre as [| p pre IH]; cbn [app next_match forallb] in *.
  - apply named_inv in Hr as [Hd [s Hs]].
    rewrite (get_dict _ _ _ Hd). fold (name_or_empty r). rewrite Hs. py_step.
    unfold names in Hhit. rewrite Hs in Hhit. cbn [str_of] in Hhit. now rewrite Hhit.
  - apply andb_true_iff in Hpre as [Hp Hpre].
    unfold first_match in Hnone. cbn [find] in Hnone.
    destruct (names recipe p) eqn:Hnp; [discriminate |].
    apply named_inv in Hp as [Hd [s Hs]].
    rewrite (get_dict _ _ _ Hd). fold (name_or_empty p). rewrite Hs. py_step.
    unfold names in Hnp. rewrite Hs in Hnp. cbn [str_of] in Hnp. rewrite Hnp.
    now apply IH.
Qed.

(** X11.  The first record the name designates wins and the records after
    it are never read: they may repeat the name or be unreadable, the run is
    the one of the catalog cut after the hit. *)
Theorem calculate_recipe_macros_first_hit (pre post : list pyval) (r : pyval)
    (mdb : gmap string pyval) (recipe : string) :
  forallb named pre = true ->
  first_match pre recipe = None ->
  named r = true ->
  names recipe r = true ->
  calculate_recipe_macros (pre ++ r :: post) mdb (PStr recipe)
  = calculate_recipe_macros (pre ++ [r]) mdb (PStr recipe).
Proof.
  intros Hpre Hnone Hr Hhit. unfold calculate_recipe_macros.
  now rewrite !(next_match_hit pre _ r recipe Hpre Hnone Hr Hhit).
Qed.

Lemma calculate_recipe_macros_first_hit_witness :
  calculate_recipe_macros ([Salad] ++ Omelette :: [Frittata; PNone; Omelette])
    example_macros (PStr "omelette")
  = calculate_recipe_macros ([Salad] ++ [Omelette]) example_macros (PStr "omelette").
Proof.
  apply calculate_recipe_macros_first_hit; reflexivity.
Defined.

(** X12.  A recipe name that is not a string: on an empty catalog the lookup
    never lowercases it and the outcome is the not-found one; on a catalog
    whose first record is readable the call raises [AttributeError]. *)
Theorem calculate_recipe_macros_non_string (db : list pyval) (mdb : gmap string pyval)
    (recipe : pyval) :
  is_str recipe = false ->
  calculate_recipe_macros [] mdb recipe = ([RecipeNotFound recipe], Ok NotFound)
  /\ (forall r, named r = true ->
        calculate_recipe_macros (r :: db) mdb recipe = ([], Raise AttributeError)).
Proof.
  intros Hs. split; [reflexivity |].
  intros r Hr. apply named_inv in Hr as [Hd [s Hn]].
  unfold calculate_recipe_macros. cbn [next_match].
  rewrite (get_dict _ _ _ Hd). fold (name_or_empty r). rewrite Hn. py_step.
  destruct recipe; try discriminate; reflexivity.
Qed.

Lemma calculate_recipe_macros_non_string_witness :
  calculate_recipe_macros [] example_macros (PList [PStr "Omelette"])
  = ([RecipeNotFound (PList [PStr "Omelette"])], Ok NotFound)
  /\ (forall r, named r = true ->
        calculate_recipe_macros (r :: example_recipes) example_macros
          (PList [PStr "Omelette"]) = ([], Raise AttributeError)).
Proof.
  apply calculate_recipe_macros_non_string. reflexivity.
Defined.

(** X13.  A found record without an ["ingredients"] field raises [KeyError];
    one whose field is [None], a boolean or a number raises [TypeError]. *)
Theorem calculate_recipe_macros_no_entries (db : list pyval) (mdb : gmap string pyval)
    (recipe : string) (r : pyval) :
  forallb named db = true ->
  first_match db recipe = Some r ->
  (field r "ingredients" = None ->
   calculate_recipe_macros db mdb (PStr recipe) = ([], Raise KeyError))
  /\ (forall v, field r "ingredients" = Some v -> not_iterable v = true ->
        calculate_recipe_macros db mdb (PStr recipe) = ([], Raise TypeError)).
Proof.
  intros Hdb Hr. unfold calculate_recipe_macros.
  rewrite (next_match_named _ _ Hdb), bind_ret, Hr.
  assert (Hd : is_dict r = true).
  { apply find_some in Hr as [Hin _]. rewrite forallb_forall in Hdb.
    specialize (Hdb r Hin). now apply named_inv in Hdb as [? _]. }
  destruct r as [| | | | | | d]; try discriminate. cbn [field getitem].
  split.
  - intros ->. reflexivity.
  - intros v -> Hv. py_step. destruct v; try discriminate; reflexivity.
Qed.

Lemma calculate_recipe_macros_no_entries_witness :
  calculate_recipe_macros [Omelette; Untitled; Blank] example_macros (PStr "UNTITLED")
  = ([], Raise KeyError)
  /\ calculate_recipe_macros [Omelette; Untitled; Blank] example_macros (PStr "blank")
     = ([], Raise TypeError).
Proof.
  split.
  - apply (proj1 (calculate_recipe_macros_no_entries [Omelette; Untitled; Blank]
                    example_macros "UNTITLED" Untitled eq_refl eq_refl)).
    reflexivity.
  - apply (proj2 (calculate_recipe_macros_no_entries [Omelette; Untitled; Blank]
                    example_macros "blank" Blank eq_refl eq_refl) PNone); reflexivity.
Defined.

(** ** The shape of the result *)

Lemma for_each_invariant {A S} (P : S -> Prop) (l : list A) (body : S -> A -> M S)
    (s s' : S) :
  (forall s x s', P s -> value (body s x) = Ok s' -> P s') ->
  P s -> value (for_each l body s) = Ok s' -> P s'.
Proof.
  intros Hb. revert s. induction l as [| x l IH]; intros s Hs; cbn [for_each].
  - now intros [= <-].
  - rewrite value_bind. destruct (value (body s x)) as [s1 |] eqn:E; [| discriminate].
    apply (IH s1). eapply Hb; eassumption.
Qed.

Lemma add_to_keys (t : list (string * float)) (macro : string) (x : float) :
  fst <$> add_to t macro x = fst <$> t.
Proof.
  unfold add_to. induction t as [| [k v] t IH]; [reflexivity |].
  cbn. f_equal; [now destruct (String.eqb k macro) | exact IH].
Qed.

(** The loop body never changes the keys of [total_macros]. *)
Lemma add_ingredient_keys (mdb : gmap string pyval) (recipe : pyval)
    (t t' : list (string * float)) (i : pyval) :
  value (add_ingredient mdb recipe t i) = Ok t' -> fst <$> t' = fst <$> t.
Proof.
  unfold add_ingredient. rewrite value_bind.
  destruct (value (get i "name" PNone)) as [n |]; [| discriminate].
  rewrite value_bind.
  destruct (value (get i "weight_grams" PNone)) as [w |]; [| discriminate].
  destruct (negb (truthy n) || negb (truthy w)); [now intros [= <-] |].
  rewrite value_bind. destruct (value (str_lower n)) as [k |]; [| discriminate].
  destruct (negb (truthy (default PNone (mdb !! k)))); [now intros [= <-] |].
  rewrite value_bind. destruct (value (truediv w 100)) as [scale |]; [| discriminate].
  apply (for_each_invariant (fun t' => fst <$> t' = fst <$> t)); [| reflexivity].
  intros s macro s' Hs. rewrite value_bind.
  destruct (value (get _ macro (PInt 0))) as [v |]; [| discriminate].
  rewrite value_bind. destruct (value (mul v scale)) as [x |]; [| discriminate].
  intros [= <-]. now rewrite add_to_keys.
Qed.

(** X14.  Whenever [calculate_recipe_macros] returns, on any catalogs and
    any argument, it returns either [None] or a dict with exactly the four
    keys protein, carbs, fat and calories, in this order, each with a float. *)
Theorem calculate_recipe_macros_shape (db : list pyval) (mdb : gmap string pyval)
    (recipe v : pyval) :
  value (calculate_recipe_macros db mdb recipe) = Ok v ->
  v = NotFound
  \/ exists p c f k : float,
       v = PDict [("protein", PFloat p); ("carbs", PFloat c);
                  ("fat", PFloat f); ("calories", PFloat k)].
Proof.
  unfold calculate_recipe_macros. rewrite value_bind.
  destruct (value (next_match db recipe)) as [[r |] |]; [| | discriminate].
  - rewrite value_bind.
    destruct (value (getitem r "ingredients")) as [ings |]; [| discriminate].
    rewrite value_bind. destruct (value (iter ings)) as [items |]; [| discriminate].
    rewrite value_bind.
    destruct (value (for_each items (add_ingredient mdb recipe) zero_totals))
      as [t |] eqn:E; [| discriminate].
    intros [= <-]. right.
    apply (for_each_invariant (fun t => fst <$> t = macro_keys)) in E;
      [| intros s x s' Hs Hv; apply add_ingredient_keys in Hv; congruence | reflexivity].
    destruct t as [| [k1 p] [| [k2 c] [| [k3 f] [| [k4 k] [| ? ?]]]]]; try discriminate.
    injection E as -> -> -> ->. now exists (round1 p), (round1 c), (round1 f), (round1 k).
  - intros [= <-]. now left.
Qed.

Lemma calculate_recipe_macros_shape_witness :
  PDict [("protein", PFloat 19.5); ("carbs", PFloat 1.5);
         ("fat", PFloat 16.5); ("calories", PFloat 232.5)] = NotFound
  \/ exists p c f k : float,
       PDict [("protein", PFloat 19.5); ("carbs", PFloat 1.5);
              ("fat", PFloat 16.5); ("calories", PFloat 232.5)]
       = PDict [("protein", PFloat p); ("carbs", PFloat c);
                ("fat", PFloat f); ("calories", PFloat k)].
Proof.
  apply (calculate_recipe_macros_shape example_recipes example_macros (PStr "Frittata")).
  vm_compute. reflexivity.
Defined.

(** ** The warnings *)

Section Warnings.

Variable MACROS_DB : gmap string pyval.
Variable recipe : pyval.

Lemma add_ingredient_warning (total_macros : list (string * float)) (i : pyval) :
  is_dict i = true -> skipped MACROS_DB i = true ->
  add_ingredient MACROS_DB recipe total_macros i
  = ([warning_of recipe i], Ok total_macros).
Proof.
  intros Hd Hs. unfold add_ingredient, warning_of.
  rewrite !(get_dict _ _ _ Hd), !bind_ret.
  fold (name_of i) (weight_of i). unfold skipped in Hs.
  destruct (negb (truthy (name_of i)) || negb (truthy (weight_of i))) eqn:E.
  - reflexivity.
  - cbn [orb] in Hs. unfold nutrients in Hs.
    destruct (name_of i) as [| | | | s | |] eqn:En; try discriminate.
    py_step. rewrite Hs. reflexivity.
Qed.

Lemma warnings_loop (items : list pyval) (f : string -> float) :
  forallb (well_formed_entry MACROS_DB) items = true ->
  stdout (for_each items (add_ingredient MACROS_DB recipe) (totals_of f))
  = warning_of recipe <$> List.filter (skipped MACROS_DB) items.
Proof.
  revert f. induction items as [| i items IH]; intros f; cbn [forallb for_each List.filter].
  - reflexivity.
  - rewrite andb_true_iff. intros [Hi Hitems].
    unfold well_formed_entry in Hi. apply andb_true_iff in Hi as [Hd Hi].
    rewrite stdout_bind.
    destruct (skipped MACROS_DB i) eqn:Hs.
    + rewrite (add_ingredient_warning _ _ Hd Hs). cbn [stdout value fst snd fmap list_fmap app].
      f_equal. now apply IH.
    + cbn [orb] in Hi. rewrite (add_ingredient_usable _ _ _ _ Hs Hi).
      cbn [stdout value fst snd ret app]. now apply IH.
Qed.

End Warnings.

(** X15.  For a found record with well-formed entries the calculator prints
    one warning per skipped entry, in recipe order, and nothing for the
    entries it uses: the missing-data warning for a falsy name or weight, the
    no-macro-data warning (with the name as written) otherwise. *)
Theorem calculate_recipe_macros_warnings (db : list pyval) (mdb : gmap string pyval)
    (recipe : string) (r : pyval) (items : list pyval) :
  forallb named db = true ->
  first_match db recipe = Some r ->
  entries r = Some items ->
  forallb (well_formed_entry mdb) items = true ->
  stdout (calculate_recipe_macros db mdb (PStr recipe))
  = warning_of (PStr recipe) <$> List.filter (skipped mdb) items.
Proof.
  intros Hdb Hr Hitems Hwf.
  rewrite (calculate_found _ _ _ _ _ Hdb Hr Hitems). unfold aggregate.
  rewrite stdout_bind. change zero_totals with (totals_of (λ _, 0%float)).
  rewrite (warnings_loop _ _ _ _ Hwf).
  destruct (value _); cbn [stdout ret fst]; now rewrite app_nil_r.
Qed.

Lemma calculate_recipe_macros_warnings_witness :
  stdout (calculate_recipe_macros example_recipes_incomplete example_macros
            (PStr "Leftovers"))
  = [MissingData (PStr "Leftovers"); MissingData (PStr "Leftovers");
     MissingData (PStr "Leftovers"); MissingData (PStr "Leftovers");
     NoMacroData (PStr "truffle") (PStr "Leftovers")].
Proof.
  apply (calculate_recipe_macros_warnings example_recipes_incomplete example_macros
           "Leftovers" Leftovers
           [PDict [("weight_grams", PInt 50)]; ingredient "" 10;
            PDict [("name", PStr "salt")]; ingredient "egg" 0; ingredient "truffle" 5]);
    vm_compute; reflexivity.
Defined.

(** ** Entries that abort the calculation *)

(** An entry on which the loop body raises, after well-formed entries, makes
    the whole call raise. *)
Lemma calculate_abort (db : list pyval) (mdb : gmap string pyval) (recipe : string)
    (r : pyval) (pre post : list pyval) (i : pyval) (e : pyexn) :
  forallb named db = true ->
  first_match db recipe = Some r ->
  entries r = Some (pre ++ i :: post) ->
  forallb (well_formed_entry mdb) pre = true ->
  (forall t, value (add_ingredient mdb (PStr recipe) t i) = Raise e) ->
  value (calculate_recipe_macros db mdb (PStr recipe)) = Raise e.
Proof.
  intros Hdb Hr Hitems Hpre Hi.
  rewrite (calculate_found _ _ _ _ _ Hdb Hr Hitems). unfold aggregate.
  rewrite value_bind, for_each_app, value_bind.
  change zero_totals with (totals_of (λ _, 0%float)).
  rewrite (aggregation_loop _ _ _ _ Hpre). cbn [for_each].
  now rewrite value_bind, Hi.
Qed.

(** X16.  An entry with a string name, a usable nutrient entry and a truthy
    weight that float arithmetic rejects aborts the call with the exception of
    the conversion: [TypeError] for a weight that is not a number,
    [OverflowError] for an integer too large for a float. *)
Theorem calculate_recipe_macros_bad_weight (db : list pyval) (mdb : gmap string pyval)
    (recipe : string) (r : pyval) (pre post : list pyval) (i : pyval)
    (s : string) (e : pyexn) :
  forallb named db = true ->
  first_match db recipe = Some r ->
  entries r = Some (pre ++ i :: post) ->
  forallb (well_formed_entry mdb) pre = true ->
  is_dict i = true ->
  name_of i = PStr s ->
  skipped mdb i = false ->
  to_double (weight_of i) = Raise e ->
  value (calculate_recipe_macros db mdb (PStr recipe)) = Raise e.
Proof.
  intros Hdb Hr Hitems Hpre Hd Hname Hs Hw.
  apply (calculate_abort _ _ _ _ _ _ _ _ Hdb Hr Hitems Hpre). intros t.
  unfold add_ingredient. rewrite !(get_dict _ _ _ Hd), !bind_ret.
  fold (name_of i) (weight_of i). unfold skipped in Hs.
  apply orb_false_iff in Hs as [Hs Hs']. rewrite Hs.
  unfold nutrients in Hs'. rewrite Hname in *. py_step. rewrite Hs'.
  unfold truediv. rewrite Hw. reflexivity.
Qed.

Lemma calculate_recipe_macros_bad_weight_witness :
  value (calculate_recipe_macros [Omelette; Porridge] example_macros (PStr "porridge"))
  = Raise TypeError.
Proof.
  apply (calculate_recipe_macros_bad_weight [Omelette; Porridge] example_macros "porridge"
           Porridge [ingredient "egg" 50] []
           (PDict [("name", PStr "egg"); ("weight_grams", PStr "100g")]) "egg");
    reflexivity.
Defined.

(** X17.  An entry whose name is truthy but not a string, with a truthy
    weight, aborts the call with [AttributeError]; with a falsy weight the
    same entry is skipped. *)
Theorem calculate_recipe_macros_bad_name (db : list pyval) (mdb : gmap string pyval)
    (recipe : string) (r : pyval) (pre post : list pyval) (i : pyval) :
  forallb named db = true ->
  first_match db recipe = Some r ->
  entries r = Some (pre ++ i :: post) ->
  forallb (well_formed_entry mdb) pre = true ->
  is_dict i = true ->
  is_str (name_of i) = false ->
  truthy (name_of i) = true ->
  (truthy (weight_of i) = true ->
   value (calculate_recipe_macros db mdb (PStr recipe)) = Raise AttributeError)
  /\ (truthy (weight_of i) = false ->
      value (calculate_recipe_macros db mdb (PStr recipe))
      = value (aggregate mdb (PStr recipe) (pre ++ post))).
Proof.
  intros Hdb Hr Hitems Hpre Hd Hstr Hn. split; intros Hw.
  - apply (calculate_abort _ _ _ _ _ _ _ _ Hdb Hr Hitems Hpre). intros t.
    unfold add_ingredient. rewrite !(get_dict _ _ _ Hd), !bind_ret.
    fold (name_of i) (weight_of i). rewrite Hn, Hw. cbn [negb orb].
    destruct (name_of i); try discriminate; reflexivity.
  - rewrite (calculate_found _ _ _ _ _ Hdb Hr Hitems).
    apply aggregate_skip; [exact Hd |].
    unfold skipped. now rewrite Hw, orb_true_r.
Qed.

Lemma calculate_recipe_macros_bad_name_witness :
  value (calculate_recipe_macros [Numbered] example_macros (PStr "numbered"))
  = Raise AttributeError.
Proof.
  apply (proj1 (calculate_recipe_macros_bad_name [Numbered] example_macros "numbered"
                  Numbered [] []
                  (PDict [("name", PInt 7); ("weight_grams", PInt 10)])
                  eq_refl eq_refl eq_refl eq_refl eq_refl eq_refl eq_refl)).
  reflexivity.
Defined.

(** X18.  A nutrient entry that is truthy but not a dict (a number, a
    string, a list) aborts the call with [AttributeError] once the weight has
    been converted. *)
Theorem calculate_recipe_macros_bad_nutrients (db : list pyval) (mdb : gmap string pyval)
    (recipe : string) (r : pyval) (pre post : list pyval) (i : pyval) (s : string) :
  forallb named db = true ->
  first_match db recipe = Some r ->
  entries r = Some (pre ++ i :: post) ->
  forallb (well_formed_entry mdb) pre = true ->
  is_dict i = true ->
  name_of i = PStr s ->
  skipped mdb i = false ->
  is_number (weight_of i) = true ->
  is_dict (nutrients mdb i) = false ->
  value (calculate_recipe_macros db mdb (PStr recipe)) = Raise AttributeError.
Proof.
  intros Hdb Hr Hitems Hpre Hd Hname Hs Hw He.
  apply (calculate_abort _ _ _ _ _ _ _ _ Hdb Hr Hitems Hpre). intros t.
  unfold add_ingredient. rewrite !(get_dict _ _ _ Hd), !bind_ret.
  fold (name_of i) (weight_of i). unfold skipped in Hs.
  apply orb_false_iff in Hs as [Hs Hs']. rewrite Hs.
  unfold nutrients in *. rewrite Hname in *. py_step. rewrite Hs'.
  rewrite (truediv_number _ _ Hw), bind_ret. cbn [for_each macro_keys].
  destruct (default PNone (mdb !! lower s)); try discriminate; reflexivity.
Qed.

Lemma calculate_recipe_macros_bad_nutrients_witness :
  value (calculate_recipe_macros [Toast] example_macros_scalar (PStr "Toast"))
  = Raise AttributeError.
Proof.
  apply (calculate_recipe_macros_bad_nutrients [Toast] example_macros_scalar "Toast"
           Toast [] [] (ingredient "bread" 60) "bread"); reflexivity.
Defined.

(** ** The nutrient table *)

Lemma for_each_ext_in {A S} (l : list A) (f g : S -> A -> M S) (s : S) :
  (forall s x, In x l -> f s x = g s x) -> for_each l f s = for_each l g s.
Proof.
  revert s. induction l as [| x l IH]; intros s Hfg; cbn [for_each]; [reflexivity |].
  rewrite Hfg by now left. apply bind_ext. intros s'. apply IH.
  intros s0 y Hy. apply Hfg. now right.
Qed.

Lemma add_ingredient_agree (mdb mdb' : gmap string pyval) (recipe : pyval)
    (t : list (string * float)) (i : pyval) :
  (forall s, name_of i = PStr s -> mdb !! lower s = mdb' !! lower s) ->
  is_dict i = true ->
  add_ingredient mdb recipe t i = add_ingredient mdb' recipe t i.
Proof.
  intros Hagree Hd. unfold add_ingredient.
  rewrite !(get_dict _ _ _ Hd), !bind_ret. fold (name_of i) (weight_of i).
  destruct (negb (truthy (name_of i)) || negb (truthy (weight_of i))); [reflexivity |].
  destruct (name_of i) as [| | | | s | |]; try reflexivity.
  py_step. now rewrite (Hagree s eq_refl).
Qed.

(** X19.  Only the nutrient entries of the found record's own ingredient
    names are read: two tables that agree on them give the same run, warnings
    included. *)
Theorem calculate_recipe_macros_table_locality (db : list pyval)
    (mdb mdb' : gmap string pyval) (recipe : string) (r : pyval) (items : list pyval) :
  forallb named db = true ->
  first_match db recipe = Some r ->
  entries r = Some items ->
  forallb is_dict items = true ->
  (forall i s, i ∈ items -> name_of i = PStr s -> mdb !! lower s = mdb' !! lower s) ->
  calculate_recipe_macros db mdb (PStr recipe)
  = calculate_recipe_macros db mdb' (PStr recipe).
Proof.
  intros Hdb Hr Hitems Hd Hagree.
  rewrite !(calculate_found _ _ _ _ _ Hdb Hr Hitems). unfold aggregate.
  rewrite (for_each_ext_in items _ (add_ingredient mdb' (PStr recipe))); [reflexivity |].
  intros t i Hi. apply add_ingredient_agree.
  - intros s. apply Hagree. now apply list_elem_of_In.
  - rewrite forallb_forall in Hd. now apply Hd.
Qed.

Lemma calculate_recipe_macros_table_locality_witness :
  calculate_recipe_macros example_recipes example_macros (PStr "omelette")
  = calculate_recipe_macros example_recipes example_macros_scalar (PStr "omelette").
Proof.
  apply (calculate_recipe_macros_table_locality example_recipes example_macros
           example_macros_scalar "omelette" Omelette [ingredient "egg" 150]);
    try reflexivity.
  intros i s Hi Hname. apply list_elem_of_singleton in Hi as ->.
  injection Hname as <-. reflexivity.
Defined.
